(** * Sublime Tortoise: VCS root discovery, status parsing and status cache

    A shallow embedding of [Tortoise.py] and [utils.py].  Python [str] values
    are modelled as [string], one [ascii] per character: the strings whose
    characters are U+0000 to U+00FF.  The operating system (filesystem
    queries, child processes) is a record of functions, the module-level
    dictionary [file_status_cache] a [gmap], and code that raises or mutates
    runs in a small state-and-exception monad. *)

From Stdlib Require Import ZArith Lia Ascii.
From stdpp Require Import base strings list gmap.

Local Open Scope Z_scope.

(** ** Python [str] methods used by the plugin *)

Module Py.

Definition nl : ascii := "010"%char.
Definition cr : ascii := "013"%char.
Definition space : ascii := " "%char.
Definition backslash : ascii := "\"%char.
Definition dquote : ascii := "034"%char.

Definition chr (c : ascii) : string := String c "".

(** [len(s)] *)
Definition len (s : string) : nat := String.length s.

(** [s[n:]] *)
Fixpoint drop (n : nat) (s : string) : string :=
  match n, s with
  | O, _ => s
  | S _, "" => ""
  | S n', String _ s' => drop n' s'
  end.

(** [s.startswith(pre)] *)
Fixpoint startswith (s pre : string) : bool :=
  match pre, s with
  | "", _ => true
  | String _ _, "" => false
  | String a pre', String b s' => bool_decide (a = b) && startswith s' pre'
  end.

(** [s.split(sep)] for a one-character separator: never returns the empty
    list. *)
Fixpoint split (sep : ascii) (s : string) : list string :=
  match s with
  | "" => [""]
  | String c s' =>
      if bool_decide (c = sep) then "" :: split sep s'
      else let parts := split sep s' in String c (hd "" parts) :: tl parts
  end.

(** Characters for which [str.isspace] holds, among the characters up to
    U+00FF: U+0009 to U+000D, U+001C to U+0020, U+0085 and U+00A0. *)
Definition isspace (c : ascii) : bool :=
  let n := nat_of_ascii c in
  ((9 <=? n)%nat && (n <=? 13)%nat) || ((28 <=? n)%nat && (n <=? 32)%nat)
  || (n =? 133)%nat || (n =? 160)%nat.

(** [s.lstrip(chars)] and [s.rstrip(chars)], the character set given as a
    predicate. *)
Fixpoint lstrip (P : ascii -> bool) (s : string) : string :=
  match s with
  | "" => ""
  | String c s' => if P c then lstrip P s' else s
  end.

Fixpoint rstrip (P : ascii -> bool) (s : string) : string :=
  match s with
  | "" => ""
  | String c s' =>
      match rstrip P s' with
      | "" => if P c then "" else chr c
      | r => String c r
      end
  end.

(** [s.strip()] *)
Definition strip (s : string) : string := lstrip isspace (rstrip isspace s).

(** [s.replace(old, new, 1)]: only the leftmost occurrence is replaced. *)
Fixpoint replace_first (old new s : string) : string :=
  if startswith s old then new +:+ drop (len old) s
  else match s with
       | "" => ""
       | String c s' => String c (replace_first old new s')
       end.

(** [s.replace('\r\n', '\n')] *)
Fixpoint replace_crlf (s : string) : string :=
  match s with
  | "" => ""
  | String c s' =>
      match s' with
      | String d s'' =>
          if bool_decide (c = cr) && bool_decide (d = nl) then String nl (replace_crlf s'')
          else String c (replace_crlf s')
      | "" => chr c
      end
  end.

(** [c.upper()] for a character up to U+00FF: the letters [a] to [z] and
    U+00E0 to U+00FE (but for the division sign U+00F7) move down by 32,
    and U+00DF becomes [SS].  The upper-case forms of U+00B5 and U+00FF are
    U+039C and U+0178, which are no characters of the strings modelled;
    [upper_in_model] excludes the two, and what is proved of [upper] at them
    says nothing of the code. *)
Definition upper_in_model (c : ascii) : bool :=
  let n := nat_of_ascii c in
  negb ((n =? 181)%nat || (n =? 255)%nat).

Definition upper_char (c : ascii) : string :=
  let n := nat_of_ascii c in
  if ((97 <=? n)%nat && (n <=? 122)%nat)
     || ((224 <=? n)%nat && (n <=? 254)%nat && negb (n =? 247)%nat)
  then chr (ascii_of_nat (n - 32))
  else if (n =? 223)%nat then "SS"
  else chr c.

(** [s.upper()] *)
Fixpoint upper (s : string) : string :=
  match s with
  | "" => ""
  | String c s' => upper_char c +:+ upper s'
  end.

(** [c in s] *)
Fixpoint has_char (c : ascii) (s : string) : bool :=
  match s with
  | "" => false
  | String d s' => bool_decide (c = d) || has_char c s'
  end.

(** [a.endswith(b)], as a proposition. *)
Definition ends_with (s suffix : string) : Prop := ∃ pre, s = pre +:+ suffix.

(** [a.endswith(b)], as a test. *)
Fixpoint endswith (s suffix : string) : bool :=
  bool_decide (s = suffix) ||
  match s with
  | "" => false
  | String _ s' => endswith s' suffix
  end.

(** The fragment of [re] the parsers use: [re.escape(s) + '$'] handed to
    [re.search].  An escaped string matches itself character by character;
    [$] (without [re.MULTILINE]) matches at the end of the subject or just
    before a newline that ends it. *)
Inductive re_atom := Lit (c : ascii) | EndAnchor.

Definition regex := list re_atom.

Fixpoint re_escape (s : string) : regex :=
  match s with
  | "" => []
  | String c s' => Lit c :: re_escape s'
  end.

Definition at_end (s : string) : bool :=
  match s with
  | "" => true
  | String c "" => bool_decide (c = nl)
  | _ => false
  end.

Fixpoint re_match_here (r : regex) (s : string) : bool :=
  match r with
  | [] => true
  | Lit c :: r' =>
      match s with
      | String d s' => bool_decide (c = d) && re_match_here r' s'
      | "" => false
      end
  | EndAnchor :: r' => at_end s && re_match_here r' s
  end.

(** [re.search(r, s) is not None] *)
Fixpoint re_search (r : regex) (s : string) : bool :=
  re_match_here r s ||
  match s with
  | "" => false
  | String _ s' => re_search r s'
  end.

End Py.

(** ** Exceptions, outcomes, the operating system and the plugin state *)

(** The exception classes the code raises or can meet; all of them derive
    from [Exception].  The string is [str(exception)]. *)
Inductive exn :=
| RepositoryNotFoundError (msg : string)
| NotFoundError (msg : string)
| Exception_ (msg : string)
| OSError (msg : string)
| IndexError (msg : string)
| UnboundLocalError (msg : string).

Definition exn_str (e : exn) : string :=
  match e with
  | RepositoryNotFoundError m | NotFoundError m | Exception_ m
  | OSError m | IndexError m | UnboundLocalError m => m
  end.

(** What a call does: return, raise, or run a loop beyond the bound the
    model gives it. *)
Inductive result (A : Type) :=
| Ok (a : A)
| Raise (e : exn)
| OutOfFuel.
Arguments Ok {A} a.
Arguments Raise {A} e.
Arguments OutOfFuel {A}.

Global Instance result_ret : MRet result := fun A a => Ok a.
Global Instance result_bind : MBind result := fun A B f r =>
  match r with
  | Ok a => f a
  | Raise e => Raise e
  | OutOfFuel => OutOfFuel
  end.

(** [os.path], [os.walk], [os.environ], [subprocess] and the editor's
    package directory.  [depth] bounds the number of proper ancestors of a
    path; it is used only to bound the ancestor walk of [find_root].
    [popen args cwd] is the decoded output of the child process ([inr]), or
    the exception [Popen] raises when the child cannot be started ([inl]);
    a child whose output is not UTF-8 is left out.  [proc_time args] is the
    time a started child takes. *)
Record OS := {
  isdir : string → bool;
  path_exists : string → bool;
  dirname : string → string;
  join : string → string → string;
  depth : string → nat;
  normcase : string → string;
  walk : string → list (string * list string * list string);
  popen : list string → string → exn + string;
  proc_time : list string → Z;
  root_drive : string;
  program_files : string;
  packages_path : string;
  PACKAGE_ROOT : string
}.

(** [Tortoise.sublime-settings]; an unset key reads as [None]. *)
Record Settings := {
  svn_tortoiseproc_path : option string;
  git_tortoiseproc_path : option string;
  hg_hgtk_path : option string;
  svn_path : option string;
  git_tgit_path : option string;
  cache_length : Z
}.

(** A value of [file_status_cache]: [{'time': ..., 'status': ...}]. *)
Record Entry := { time : Z; status : option string }.

(** The mutable state: the status cache, the wall clock read by
    [time.time()], the child processes spawned so far (arguments and working
    directory, latest first), the error dialogs shown (latest first) and the
    number of [check_status] calls [process_status] has made and seen
    return or raise.  Times are integers; only their order and sums
    matter to the code. *)
Record World := {
  file_status_cache : gmap string Entry;
  clock : Z;
  spawned : list (list string * string);
  dialogs : list string;
  status_checks : nat
}.

Definition M (A : Type) : Type := World → result A * World.

Global Instance M_ret : MRet M := fun A a w => (Ok a, w).
Global Instance M_bind : MBind M := fun A B f m w =>
  match m w with
  | (Ok a, w') => f a w'
  | (Raise e, w') => (Raise e, w')
  | (OutOfFuel, w') => (OutOfFuel, w')
  end.

Definition raise {A} (e : exn) : M A := fun w => (Raise e, w).

(** [try: body  except Exception as e: handler(e)] *)
Definition try_except {A} (body : M A) (handler : exn → M A) : M A := fun w =>
  match body w with
  | (Raise e, w') => handler e w'
  | r => r
  end.

(** [time.time()] *)
Definition time_time : M Z := fun w => (Ok (clock w), w).

(** [sublime.error_message(msg)] *)
Definition error_message (msg : string) : M unit := fun w =>
  (Ok tt, {| file_status_cache := file_status_cache w; clock := clock w;
             spawned := spawned w; dialogs := msg :: dialogs w;
             status_checks := status_checks w |}).

Definition cache_get (path : string) : M (option Entry) := fun w =>
  (Ok (file_status_cache w !! path), w).

Definition cache_set (path : string) (e : Entry) : M unit := fun w =>
  (Ok tt, {| file_status_cache := <[path := e]> (file_status_cache w);
             clock := clock w; spawned := spawned w; dialogs := dialogs w;
             status_checks := status_checks w |}).

Definition count_status_check : M unit := fun w =>
  (Ok tt, {| file_status_cache := file_status_cache w; clock := clock w;
             spawned := spawned w; dialogs := dialogs w;
             status_checks := S (status_checks w) |}).

(** ** [NonInteractiveProcess] *)

Definition rstrip_chars (c : ascii) : bool :=
  bool_decide (c = Py.space) || bool_decide (c = Py.nl) || bool_decide (c = Py.cr).

(** The text [run] returns for the decoded output [readout]. *)
Definition normalize (readout : string) : string :=
  Py.rstrip rstrip_chars (Py.replace_crlf readout).

(** The state after one child process was spawned and waited for. *)
Definition spawn_world (os : OS) (args : list string) (cwd : string) (w : World) : World :=
  {| file_status_cache := file_status_cache w;
     clock := clock w + proc_time os args;
     spawned := (args, cwd) :: spawned w;
     dialogs := dialogs w;
     status_checks := status_checks w |}.

(** [NonInteractiveProcess(args, cwd).run()]: one child process per call
    that starts one; a [Popen] that raises leaves no child behind. *)
Definition NonInteractiveProcess_run (os : OS) (args : list string) (cwd : string)
  : M string := fun w =>
  match popen os args cwd with
  | inr readout => (Ok (normalize readout), spawn_world os args cwd w)
  | inl e => (Raise e, w)
  end.

(** ** The status parsers: classes [SVN], [Git] and [Hg] *)

(** The objects [process_status] receives as [vcs]: an [SVN] with its root
    and candidate binaries, a [Git] or an [Hg] with its binary and root. *)
Inductive Vcs :=
| SVN (root_dir : string) (svn_paths : list string)
| Git (git_path root_dir : string)
| Hg (hg_path root_dir : string).

Definition NL : string := Py.chr Py.nl.
Definition DQ : string := Py.chr Py.dquote.
Definition BS : string := Py.chr Py.backslash.

Definition too_old_message : string :=
  NL +:+ "This client is too old to work with the working copy." +:+ NL +:+
  "You need to get a newer Subversion client, and point your sublime tortoise "
  +:+ DQ +:+ "svn_path" +:+ DQ +:+ " setting to it's location." +:+ NL +:+ NL +:+
  "For more details, see: http://subversion.apache.org/faq.html#working-copy-format-change"
  +:+ NL.

(** [SVN.check_errors] *)
Definition check_errors (error : string) : M unit :=
  if bool_decide (error = "E155021") then raise (Exception_ too_old_message)
  else mret tt.

(** [SVN.get_svn_paths] *)
Definition get_svn_paths (os : OS) (st : Settings) : list string :=
  match svn_path st with Some p => [p] | None => [] end ++
  [join os (join os (join os (packages_path os) (PACKAGE_ROOT os)) "svn") "svn.exe"].

(** [SVN.check_svn_vs_path(svn_path, path)] followed by [run()] *)
Definition check_svn_vs_path (os : OS) (root_dir svn_path path : string) : M string :=
  NonInteractiveProcess_run os [svn_path; "status"; path] root_dir.

(** [path.replace(self.root_dir + '\\', '', 1)] *)
Definition path_without_root (root_dir path : string) : string :=
  Py.replace_first (root_dir +:+ BS) "" path.

(** [self.root_dir != path and re.search(path_regex, line) is None] *)
Definition skips_line (root_dir path line : string) : bool :=
  let path_regex := Py.re_escape (path_without_root root_dir path) ++ [Py.EndAnchor] in
  bool_decide (root_dir ≠ path) && negb (Py.re_search path_regex line).

(** [result[0].split(":")[1].strip()], when the index exists. *)
Definition error_code (first : string) : option string :=
  Py.strip <$> (Py.split ":" first !! 1%nat).

(** The first loop of [SVN.check_status]; [result] is the variable of that
    name, unbound before the first candidate ran. *)
Fixpoint svn_candidates (os : OS) (root_dir path : string) (svn_paths : list string)
    (result : option (list string)) : M (option (list string)) :=
  match svn_paths with
  | [] => mret result
  | svn_path :: rest =>
      out ← check_svn_vs_path os root_dir svn_path path;
      let result := Py.split Py.nl out in
      match result with
      | first :: _ =>
          if Py.startswith first "svn: E" then
            match error_code first with
            | Some code =>
                _ ← check_errors code;
                svn_candidates os root_dir path rest (Some result)
            | None => raise (IndexError "list index out of range")
            end
          else mret (Some result)
      | [] => mret (Some result)
      end
  end.

(** The second loop of [SVN.check_status]. *)
Fixpoint svn_scan (root_dir path : string) (result : list string) : string :=
  match result with
  | [] => ""
  | line :: rest =>
      match line with
      | "" => svn_scan root_dir path rest
      | String c _ =>
          if skips_line root_dir path line then svn_scan root_dir path rest
          else Py.chr c
      end
  end.

(** The loop of [Git.check_status]. *)
Fixpoint git_scan (root_dir path : string) (result : list string) : string :=
  match result with
  | [] => ""
  | line :: rest =>
      match line with
      | String c1 (String c2 _) =>
          if skips_line root_dir path line then git_scan root_dir path rest
          else
            let res := if bool_decide (c1 ≠ Py.space) then c1 else c2 in
            Py.upper (Py.chr res)
      | _ => git_scan root_dir path rest
      end
  end.

(** The loop of [Hg.check_status]. *)
Fixpoint hg_scan (result : list string) : string :=
  match result with
  | [] => ""
  | line :: rest =>
      match line with
      | "" => hg_scan rest
      | String c _ => Py.upper (Py.chr c)
      end
  end.

(** [vcs.check_status(path)] for the three classes. *)
Definition check_status (os : OS) (vcs : Vcs) (path : string) : M string :=
  match vcs with
  | SVN root_dir svn_paths =>
      result ← svn_candidates os root_dir path svn_paths None;
      match result with
      | Some result => mret (svn_scan root_dir path result)
      | None => raise (UnboundLocalError "result")
      end
  | Git git_path root_dir =>
      if isdir os path then
        out ← NonInteractiveProcess_run os [git_path; "log"; "-1"; path] root_dir;
        let result := Py.split Py.nl (Py.strip out) in
        if bool_decide (result = [""]) then mret "?" else mret ""
      else
        out ← NonInteractiveProcess_run os [git_path; "status"; "--short"] root_dir;
        mret (git_scan root_dir path (Py.split Py.nl (Py.strip out)))
  | Hg hg_path root_dir =>
      if isdir os path then
        out ← NonInteractiveProcess_run os
                [hg_path; "log"; "-l"; "1"; DQ +:+ path +:+ DQ] root_dir;
        let result := Py.split Py.nl (Py.strip out) in
        if bool_decide (result = [""]) then mret "?" else mret ""
      else
        out ← NonInteractiveProcess_run os [hg_path; "status"; path] root_dir;
        mret (hg_scan (Py.split Py.nl out))
  end.

(** ** The status cache: [Tortoise.process_status] *)

(** The [debug] prints of the method are left out, as is the [print] of
    [check_errors]. *)

(** The part of [process_status] after the cache test: run the parser,
    report an exception in a dialog, store and return the status. *)
Definition fetch_status (os : OS) (st : Settings) (vcs : Vcs) (path : string)
  : M (option string) :=
  status ← try_except (s ← check_status os vcs path; mret (Some s))
             (fun exception => _ ← error_message (exn_str exception); mret None);
  _ ← count_status_check;
  now ← time_time;
  _ ← cache_set path {| time := now + cache_length st; status := status |};
  mret status.

Definition process_status (os : OS) (st : Settings) (vcs : Vcs) (path : string)
  : M (option string) :=
  cached ← cache_get path;
  match cached with
  | Some e =>
      now ← time_time;
      if bool_decide (time e > now - cache_length st) then mret (status e)
      else fetch_status os st vcs path
  | None => fetch_status os st vcs path
  end.

(** ** Root discovery: [Tortoise.find_root] *)

(** The [while cur_dir != last_dir] loop.  [fuel] bounds the number of
    passes through the body; the loop test itself costs none.  The value is
    [root_dir] when the loop is left. *)
Fixpoint find_root_loop (os : OS) (name : string) (find_first : bool) (fuel : nat)
    (root_dir last_dir : option string) (cur_dir : string) : result (option string) :=
  if bool_decide (Some cur_dir = last_dir) then Ok root_dir
  else
    match fuel with
    | O => OutOfFuel
    | S fuel' =>
        let marker := path_exists os (join os cur_dir name) in
        if bool_decide (root_dir ≠ None) && negb marker then Ok root_dir
        else if marker && find_first then Ok (Some cur_dir)
        else
          find_root_loop os name find_first fuel'
            (if marker then Some cur_dir else root_dir)
            (Some cur_dir) (dirname os cur_dir)
    end.

(** The directory the walk starts from. *)
Definition start_dir (os : OS) (path : string) : string :=
  if isdir os path then path else dirname os path.

(** [find_root(name, path, find_first)]; the value is what the method
    stores in [self.root_dir]. *)
Definition find_root (os : OS) (name path : string) (find_first : bool) : result string :=
  let cur_dir := start_dir os path in
  root_dir ← find_root_loop os name find_first (S (depth os cur_dir)) None None cur_dir;
  match root_dir with
  | None => Raise (RepositoryNotFoundError ("Unable to find " +:+ name +:+ " directory"))
  | Some root_dir => Ok root_dir
  end.

(** ** The [Tortoise*] classes and the selector *)

Inductive Tortoise :=
| TortoiseSVN (path root_dir : string)
| TortoiseGit (path root_dir : string)
| TortoiseHg (path root_dir : string).

(** [set_binary_path] sets [self.path = None] and then always raises; this
    is the exception it raises, for the class named [cls]. *)
Definition set_binary_path (os : OS) (cls path_suffix binary_name setting_name : string)
  : exn :=
  let normal_path := root_drive os +:+ program_files os +:+ path_suffix in
  NotFoundError
    ("Unable to find " +:+ cls +:+ "." +:+ NL +:+ NL +:+ "Please add the path to "
     +:+ binary_name +:+ " to the setting " +:+ DQ +:+ setting_name +:+ DQ +:+ " in "
     +:+ DQ +:+ packages_path os +:+ "\Tortoise\Tortoise.sublime-settings" +:+ DQ
     +:+ "." +:+ NL +:+ NL +:+ "Example:" +:+ NL +:+ NL +:+ "{" +:+ DQ +:+ setting_name
     +:+ DQ +:+ ": r" +:+ DQ +:+ normal_path +:+ DQ +:+ "}").

(** [TortoiseSVN.__init__(binary_path, file)] *)
Definition TortoiseSVN_init (os : OS) (binary_path : option string) (file : string)
  : result Tortoise :=
  root_dir ← find_root os ".svn" file false;
  match binary_path with
  | Some p => Ok (TortoiseSVN p root_dir)
  | None => Raise (set_binary_path os "TortoiseSVN" "TortoiseSVN\bin\TortoiseProc.exe"
                     "TortoiseProc.exe" "svn_tortoiseproc_path")
  end.

(** [TortoiseGit.__init__(binary_path, file)] *)
Definition TortoiseGit_init (os : OS) (binary_path : option string) (file : string)
  : result Tortoise :=
  root_dir ← find_root os ".git" file true;
  match binary_path with
  | Some p => Ok (TortoiseGit p root_dir)
  | None => Raise (set_binary_path os "TortoiseGit" "TortoiseGit\bin\TortoiseProc.exe"
                     "TortoiseProc.exe" "git_tortoiseproc_path")
  end.

(** [TortoiseHg.__init__(binary_path, file)] *)
Definition TortoiseHg_init (os : OS) (binary_path : option string) (file : string)
  : result Tortoise :=
  root_dir ← find_root os ".hg" file true;
  match binary_path with
  | Some p => Ok (TortoiseHg p root_dir)
  | None =>
      match set_binary_path os "TortoiseHg" "TortoiseHg\thgw.exe" "thgw.exe"
              "hg_hgtk_path" with
      | NotFoundError _ =>
          Raise (set_binary_path os "TortoiseHg" "TortoiseHg\hgtk.exe"
                   "thgw.exe (for TortoiseHg v2.x) or hgtk.exe (for TortoiseHg v1.x)"
                   "hg_hgtk_path")
      | e => Raise e
      end
  end.

(** [try: vcs = attempt  except RepositoryNotFoundError: pass] *)
Definition try_vcs (vcs : option Tortoise) (attempt : result Tortoise)
  : result (option Tortoise) :=
  match attempt with
  | Ok t => Ok (Some t)
  | Raise (RepositoryNotFoundError _) => Ok vcs
  | Raise e => Raise e
  | OutOfFuel => OutOfFuel
  end.

(** [TortoiseCommand.get_vcs(path)] *)
Definition get_vcs (os : OS) (st : Settings) (path : option string) : result Tortoise :=
  match path with
  | None => Raise (NotFoundError "Unable to run commands on an unsaved file")
  | Some path =>
      vcs ← try_vcs None (TortoiseSVN_init os (svn_tortoiseproc_path st) path);
      vcs ← try_vcs vcs (TortoiseGit_init os (git_tortoiseproc_path st) path);
      vcs ← try_vcs vcs (TortoiseHg_init os (hg_hgtk_path st) path);
      match vcs with
      | None => Raise (NotFoundError
                  ("The current file does not appear to be in an " +:+
                   "SVN, Git or Mercurial working copy"))
      | Some vcs => Ok vcs
      end
  end.

(** [Git.__init__]: [a or b or c] with [b] a non-empty string. *)
Definition Git_init (os : OS) (st : Settings) (tortoise_proc_path root_dir : string) : Vcs :=
  let fallback := dirname os tortoise_proc_path +:+ "\tgit.exe" in
  Git (match git_tgit_path st with
       | Some p => if bool_decide (p = "") then fallback else p
       | None => fallback
       end) root_dir.

(** [Hg.__init__] *)
Definition Hg_init (os : OS) (tortoise_proc_path root_dir : string) : Vcs :=
  Hg (dirname os tortoise_proc_path +:+ "\hg.exe") root_dir.

(** [get_status(path)] of the three [Tortoise*] classes. *)
Definition get_status (os : OS) (st : Settings) (t : Tortoise) (path : string)
  : M (option string) :=
  match t with
  | TortoiseSVN _ root_dir =>
      process_status os st (SVN root_dir (get_svn_paths os st)) path
  | TortoiseGit p root_dir => process_status os st (Git_init os st p root_dir) path
  | TortoiseHg p root_dir => process_status os st (Hg_init os p root_dir) path
  end.

(** ** [utils.search_file] *)

(** [fnmatch.filter(names, pat)] for a pattern without wildcards. *)
Definition ffilter (os : OS) (names : list string) (pat : string) : list string :=
  filter (fun name => normcase os name = normcase os pat) names.

(** The innermost loop: [match] is assigned for each filtered name until a
    non-empty one stops the loop. *)
Fixpoint search_names (os : OS) (root : string) (names : list string)
    (match_ : option string) : option string :=
  match names with
  | [] => match_
  | filename :: rest =>
      let m := join os root filename in
      if bool_decide (m ≠ "") then Some m else search_names os root rest (Some m)
  end.

(** The loop over [walk(path)]. *)
Definition search_walk (os : OS) (walked : list (string * list string * list string))
    (match_ : option string) : option string :=
  foldl (fun m '(root, _, filenames) => search_names os root (ffilter os filenames "git.exe") m)
        match_ walked.

(** [search_file(filename, dirs)] *)
Definition search_file (os : OS) (filename : string) (dirs : list string) : option string :=
  foldl (fun m path => if isdir os path then search_walk os (walk os path) m else m)
        None dirs.

(** ** Notions used to state the properties *)

(** The [i]-th ancestor of a directory: [dirname] applied [i] times. *)
Definition ancestor (os : OS) (dir : string) (i : nat) : string :=
  Nat.iter i (dirname os) dir.

(** [os.path.exists(os.path.join(dir, name))] *)
Definition has_marker (os : OS) (name dir : string) : bool :=
  path_exists os (join os dir name).

(** Some ancestor of the directory the walk for [path] starts from has the
    marker [name]. *)
Definition under (os : OS) (name path : string) : Prop :=
  ∃ i, has_marker os name (ancestor os (start_dir os path) i) = true.

(** [dirname] reaches its fixed point: [depth] decreases on every proper
    step. *)
Definition os_wf (os : OS) : Prop :=
  ∀ p, dirname os p ≠ p → (depth os (dirname os p) < depth os p)%nat.

(** The lines [run().split('\n')] gives for a decoded output. *)
Definition lines_of (readout : string) : list string :=
  Py.split Py.nl (normalize readout).

Definition first_line (readout : string) : string := hd "" (lines_of readout).

Definition svn_args (path svn_path : string) : list string := [svn_path; "status"; path].

(** The candidate [svn_path] answers with a first line [svn: E...] whose
    error code is [code]. *)
Definition svn_reports (os : OS) (root_dir path svn_path code : string) : Prop :=
  ∃ readout,
    popen os (svn_args path svn_path) root_dir = inr readout ∧
    Py.startswith (first_line readout) "svn: E" = true ∧
    error_code (first_line readout) = Some code.

(** The state after the candidates [svn_paths] were run one after the
    other. *)
Definition svn_spawns (os : OS) (root_dir path : string) (svn_paths : list string)
    (w : World) : World :=
  foldl (fun w p => spawn_world os (svn_args path p) root_dir w) w svn_paths.

(** The child processes one [check_status] call can start: one for each
    candidate client of an [SVN], one for a [Git] or an [Hg]. *)
Definition max_spawns (vcs : Vcs) : nat :=
  match vcs with
  | SVN _ svn_paths => length svn_paths
  | Git _ _ | Hg _ _ => 1
  end.

(** [d] time units pass. *)
Definition elapse (d : Z) (w : World) : World :=
  {| file_status_cache := file_status_cache w; clock := clock w + d;
     spawned := spawned w; dialogs := dialogs w; status_checks := status_checks w |}.

(** The cache test of [process_status]. *)
Definition cache_hit (st : Settings) (path : string) (w : World) : option Entry :=
  match file_status_cache w !! path with
  | Some e => if bool_decide (time e > clock w - cache_length st) then Some e else None
  | None => None
  end.

(** The state [fetch_status] leaves when the parser left [wc] and the status
    to store is [s]. *)
Definition stored (st : Settings) (path : string) (s : option string)
    (shown : list string) (wc : World) : World :=
  {| file_status_cache :=
       <[path := {| time := clock wc + cache_length st; status := s |}]>
         (file_status_cache wc);
     clock := clock wc; spawned := spawned wc; dialogs := shown ++ dialogs wc;
     status_checks := S (status_checks wc) |}.

(** [w'] differs from [w] in the clock and the process list at most. *)
Definition same_plugin_state (w w' : World) : Prop :=
  file_status_cache w' = file_status_cache w ∧ dialogs w' = dialogs w ∧
  status_checks w' = status_checks w.

(** A line the SVN and Git loops do not skip: the queried path is the root,
    or the line ends with the path relative to the root. *)
Definition line_matches (root_dir path line : string) : Prop :=
  root_dir = path ∨ Py.ends_with line (path_without_root root_dir path).

(** The directories [search_file] walks, in order. *)
Definition walked (os : OS) (dirs : list string) : list (string * list string * list string) :=
  concat (map (walk os) (filter (fun p => isdir os p = true) dirs)).

(** ** A small filesystem to run the definitions on *)

Module Sample.

(** [ntpath.splitdrive] for a path with a drive letter or without drive
    (the paths of network shares are left out). *)
Definition splitdrive (p : string) : string * string :=
  match p with
  | String d (String c rest) =>
      if bool_decide (c = ":"%char) then (String d (String c ""), rest) else ("", p)
  | _ => ("", p)
  end.

Definition is_sep (c : ascii) : bool :=
  bool_decide (c = Py.backslash) || bool_decide (c = "/"%char).

(** [p[:i]], with [i] the index after the last separator of [p]. *)
Fixpoint head_part (p : string) : string :=
  match p with
  | "" => ""
  | String c p' =>
      match head_part p' with
      | "" => if is_sep c then Py.chr c else ""
      | h => String c h
      end
  end.

(** [ntpath.dirname]: the head without its trailing separators, unless it
    consists of separators only. *)
Definition dirname_nt (p : string) : string :=
  let head := head_part (splitdrive p).2 in
  (splitdrive p).1 +:+
  match Py.rstrip is_sep head with
  | "" => head
  | head2 => head2
  end.

Fixpoint ends_with_sep (p : string) : bool :=
  match p with
  | "" => false
  | String c "" => is_sep c
  | String _ p' => ends_with_sep p'
  end.

(** [ntpath.join(a, b)] for a relative [b] without drive. *)
Definition join_nt (a b : string) : string :=
  let path := (splitdrive a).2 in
  (splitdrive a).1 +:+
  (if bool_decide (path = "") || ends_with_sep path then path else path +:+ BS) +:+ b.

Fixpoint assoc {A B} `{EqDecision A} (k : A) (l : list (A * B)) : option B :=
  match l with
  | [] => None
  | (k', v) :: l' => if decide (k = k') then Some v else assoc k l'
  end.

(** Directories [dirs], existing paths [present], child processes [procs]
    (output by argument list; any other command fails to start) and directory
    trees [trees] as [os.walk] lists them. *)
Definition os (dirs present : list string) (procs : list (list string * string))
    (trees : list (string * list (string * list string * list string))) : OS :=
  {| isdir p := bool_decide (p ∈ dirs);
     path_exists p := bool_decide (p ∈ present);
     dirname := dirname_nt;
     join := join_nt;
     depth := String.length;
     normcase s := s;
     walk p := default [] (assoc p trees);
     popen args cwd :=
       match assoc args procs with
       | Some out => inr out
       | None => inl (OSError "[WinError 2] The system cannot find the file specified")
       end;
     proc_time _ := 1;
     root_drive := "C:\";
     program_files := "C:\Program Files (x86)";
     packages_path := "C:\Sublime\Packages";
     PACKAGE_ROOT := "Tortoise" |}.

Definition settings (svn git hg : option string) (ttl : Z) : Settings :=
  {| svn_tortoiseproc_path := svn; git_tortoiseproc_path := git; hg_hgtk_path := hg;
     svn_path := None; git_tgit_path := None; cache_length := ttl |}.

Definition world (cache : gmap string Entry) (now : Z) : World :=
  {| file_status_cache := cache; clock := now; spawned := []; dialogs := [];
     status_checks := 0 |}.

(** An SVN working copy [C:\wc] whose status listing names two files. *)
Definition svn_listing : string := "M       barfoo.txt" +:+ NL +:+ "A       foo.txt".

Definition svn_os : OS :=
  os [] [] [(svn_args "C:\wc\foo.txt" "svn", svn_listing)] [].

(** Two candidate clients: the first cannot lock the working copy, the
    second is too old for it. *)
Definition svn_old_os : OS :=
  os [] []
    [(svn_args "C:\wc\foo.txt" "C:\tools\svn.exe",
       "svn: E155004: Working copy 'C:\wc' locked");
     (svn_args "C:\wc\foo.txt" "svn",
       "svn: E155021: This client is too old to work with the working copy at"
       +:+ NL +:+ "'C:\wc' (format 31).")] [].

(** Two candidate clients: the configured one rejects the format of the
    working copy, the one that follows lists the file. *)
Definition svn_fallback_os : OS :=
  os [] []
    [(svn_args "C:\wc\foo.txt" "C:\tools\svn.exe",
       "svn: E155036: Please see the 'svn upgrade' command");
     (svn_args "C:\wc\foo.txt" "svn", "M       foo.txt")] [].

(** A Git working copy [C:\proj] answering [git status --short] with
    [readout]; [C:\proj\sub] is a directory without history. *)
Definition git_os (readout : string) : OS :=
  os ["C:\proj\sub"] []
    [(["git"; "status"; "--short"], readout);
     (["git"; "log"; "-1"; "C:\proj\sub"], "")] [].

Definition w0 : World := world ∅ 0.

Definition st5 : Settings := settings None None None 5.

(** The state after a first lookup of [C:\proj\a.txt] that ran
    [git status --short] and stored [M]. *)
Definition w1 : World :=
  stored st5 "C:\proj\a.txt" (Some "M") []
    (spawn_world (git_os " M a.txt") ["git"; "status"; "--short"] "C:\proj" w0).

(** An entry written at time 5 with expiry 10, looked up at time 12. *)
Definition stale_world : World :=
  world {["C:\proj\a.txt" := {| time := 10; status := Some "M" |}]} 12.

(** Nested SVN directories, each level with its own [.svn]. *)
Definition nested_svn_os : OS :=
  os [] ["C:\wc\a\b\.svn"; "C:\wc\a\.svn"; "C:\wc\.svn"] [] [].

(** A working copy with a [.git] directory only, and one with [.git] and
    [.hg] side by side. *)
Definition only_git_os : OS := os [] ["C:\proj\.git"] [] [].

Definition git_hg_os : OS := os [] ["C:\proj\.git"; "C:\proj\.hg"] [] [].

(** A program directory with two copies of [git.exe]. *)
Definition search_os : OS :=
  os ["C:\Program Files (x86)"] [] []
    [("C:\Program Files (x86)",
      [("C:\Program Files (x86)", ["Git"], []);
       ("C:\Program Files (x86)\Git", ["bin"; "cmd"], ["LICENSE.txt"]);
       ("C:\Program Files (x86)\Git\bin", [], ["git.exe"; "sh.exe"]);
       ("C:\Program Files (x86)\Git\cmd", [], ["git.exe"])])].

End Sample.

(** ** The menu commands *)

(** What a command sees of the editor: the file of the active view ([None]
    for an unsaved buffer) and the setting [enable_menus], [True] when
    unset. *)
Record Window := { active_file : option string; enable_menus : bool }.

(** The [paths] argument of a command: [True], a list of paths, or [None]. *)
Inductive Paths := PathsTrue | PathsList (l : list string) | PathsNone.

(** [TortoiseCommand.get_path] *)
Definition get_path (win : Window) (paths : Paths) : option string :=
  match paths with
  | PathsTrue => active_file win
  | PathsList (p :: _) => Some p
  | PathsList [] | PathsNone => active_file win
  end.

(** [TortoiseCommand.menus_enabled] *)
Definition menus_enabled (win : Window) : bool := enable_menus win.

(** The values the [is_visible] methods return. *)
Inductive pyval := PyBool (b : bool) | PyStr (s : string) | PyNone.

(** [bool(v)] *)
Definition truthy (v : pyval) : bool :=
  match v with
  | PyBool b => b
  | PyStr s => negb (bool_decide (s = ""))
  | PyNone => false
  end.

(** A call that touches no state. *)
Definition lift {A} (r : result A) : M A := fun w => (r, w).

(** The decorator [invisible_when_not_found]. *)
Definition invisible_when_not_found (fn : M pyval) : M pyval := fun w =>
  match fn w with
  | (Ok PyNone, w') => (Ok (PyBool true), w')
  | (Ok res, w') => (Ok res, w')
  | (Raise (NotFoundError _), w') => (Ok (PyBool false), w')
  | r => r
  end.

(** [status in statuses], for the status [get_status] returned. *)
Definition status_in (s : option string) (statuses : list string) : bool :=
  match s with
  | Some s => bool_decide (s ∈ statuses)
  | None => false
  end.

(** [is_visible] of [TortoiseCommitCommand], [TortoiseStatusCommand] and
    [TortoiseSyncCommand]: the three bodies are the same. *)
Definition TortoiseCommitCommand_is_visible (os : OS) (st : Settings) (win : Window)
    (paths : Paths) : M pyval :=
  invisible_when_not_found
    (if negb (menus_enabled win) then mret (PyBool false)
     else
       match get_path win paths with
       | None => mret (PyBool false)
       | Some path =>
           if bool_decide (path = "") then mret (PyBool false)
           else
             _ ← lift (get_vcs os st (Some path));
             mret (PyBool (isdir os path))
       end).

Definition TortoiseStatusCommand_is_visible := TortoiseCommitCommand_is_visible.

Definition TortoiseSyncCommand_is_visible := TortoiseCommitCommand_is_visible.

(** [path and x]: [x] is looked at for a non-empty path only. *)
Definition path_and (path : string) (x : M bool) : M pyval :=
  if bool_decide (path = "") then mret (PyStr path)
  else b ← x; mret (PyBool b).

Definition visible_statuses : list string := ["A"; ""; "M"; "R"; "C"; "U"].

(** The methods below call [get_vcs(path)] before anything else looks at
    [path], so that [path] is a string from there on: [get_vcs(None)]
    raises. *)
Definition with_vcs (os : OS) (st : Settings) (win : Window) (paths : Paths)
    (k : Tortoise → string → M pyval) : M pyval :=
  vcs ← lift (get_vcs os st (get_path win paths));
  match get_path win paths with
  | Some path => k vcs path
  | None => raise (NotFoundError "Unable to run commands on an unsaved file")
  end.

(** [TortoiseLogCommand.is_visible] *)
Definition TortoiseLogCommand_is_visible (os : OS) (st : Settings) (win : Window)
    (paths : Paths) : M pyval :=
  invisible_when_not_found
    (if negb (menus_enabled win) then mret (PyBool false)
     else
       with_vcs os st win paths (fun vcs path =>
         if isdir os path then mret (PyBool true)
         else
           path_and path
             (s ← get_status os st vcs path; mret (status_in s visible_statuses)))).

(** [TortoiseDiffCommand.is_visible] *)
Definition TortoiseDiffCommand_is_visible (os : OS) (st : Settings) (win : Window)
    (paths : Paths) : M pyval :=
  invisible_when_not_found
    (if negb (menus_enabled win) then mret (PyBool false)
     else
       with_vcs os st win paths (fun vcs path =>
         if isdir os path then mret (PyBool true)
         else
           s ← get_status os st vcs path;
           mret (PyBool (status_in s visible_statuses)))).

(** [TortoiseAddCommand.is_visible] *)
Definition TortoiseAddCommand_is_visible (os : OS) (st : Settings) (win : Window)
    (paths : Paths) : M pyval :=
  invisible_when_not_found
    (if negb (menus_enabled win) then mret (PyBool false)
     else
       with_vcs os st win paths (fun vcs path =>
         s ← get_status os st vcs path;
         mret (PyBool (status_in s ["D"; "?"])))).

(** [is_visible] of [TortoiseRemoveCommand] and [TortoiseRevertCommand]:
    the two bodies are the same. *)
Definition TortoiseRemoveCommand_is_visible (os : OS) (st : Settings) (win : Window)
    (paths : Paths) : M pyval :=
  invisible_when_not_found
    (if negb (menus_enabled win) then mret (PyBool false)
     else
       with_vcs os st win paths (fun vcs path =>
         s ← get_status os st vcs path;
         mret (PyBool (status_in s visible_statuses)))).

Definition TortoiseRevertCommand_is_visible := TortoiseRemoveCommand_is_visible.

(** ** The activity indicator of [handle_threads] *)

(** One pass of the branch taken while searches are running: the two
    widths of the status text, and the [i] and [dir] handed to the next
    pass. *)
Definition animate (i dir : Z) : Z * Z * Z * Z :=
  let before := i `mod` 8 in
  let after := 7 - before in
  let dir := if bool_decide (after = 0) then -1 else dir in
  let dir := if bool_decide (before = 0) then 1 else dir in
  (before, after, i + dir, dir).

(** The [i] and [dir] of the pass after [n] passes, from the defaults
    [i=0] and [dir=1]. *)
Fixpoint animation (n : nat) : Z * Z :=
  match n with
  | O => (0, 1)
  | S n' => let '(i, dir) := animation n' in
            let '(_, _, i', dir') := animate i dir in (i', dir')
  end.

(** ** Further notions *)

(** Every character of [s] satisfies [P]. *)
Fixpoint all_chars (P : ascii → bool) (s : string) : bool :=
  match s with
  | "" => true
  | String c s' => P c && all_chars P s'
  end.

(** The backend of a handle, its marker and its binary-path setting. *)
Definition marker_of (t : Tortoise) : string :=
  match t with
  | TortoiseSVN _ _ => ".svn"
  | TortoiseGit _ _ => ".git"
  | TortoiseHg _ _ => ".hg"
  end.

Definition binary_setting (st : Settings) (t : Tortoise) : option string :=
  match t with
  | TortoiseSVN _ _ => svn_tortoiseproc_path st
  | TortoiseGit _ _ => git_tortoiseproc_path st
  | TortoiseHg _ _ => hg_hgtk_path st
  end.

Definition handle_path (t : Tortoise) : string :=
  match t with
  | TortoiseSVN p _ | TortoiseGit p _ | TortoiseHg p _ => p
  end.

Definition handle_root (t : Tortoise) : string :=
  match t with
  | TortoiseSVN _ r | TortoiseGit _ r | TortoiseHg _ r => r
  end.

(** The working directory and the command of the one process the Git and
    Mercurial parsers run. *)
Definition vcs_command (os : OS) (vcs : Vcs) (path : string) : list string * string :=
  match vcs with
  | SVN root_dir _ => ([], root_dir)
  | Git git_path root_dir =>
      (if isdir os path then [git_path; "log"; "-1"; path]
       else [git_path; "status"; "--short"], root_dir)
  | Hg hg_path root_dir =>
      (if isdir os path then [hg_path; "log"; "-l"; "1"; DQ +:+ path +:+ DQ]
       else [hg_path; "status"; path], root_dir)
  end.

(** ** More sample runs *)

Module Demo.

Definition CR : string := Py.chr Py.cr.

(** [svn status] of one file, with DOS line ends and a blank tail. *)
Definition crlf_readout : string :=
  "M       foo.txt" +:+ CR +:+ NL +:+ CR +:+ NL +:+ "  ".

(** A working copy [C:\wc] queried as a whole: the first client finds it
    locked, the second does not know it; a third one lists it after an
    empty line. *)
Definition root_os : OS :=
  Sample.os ["C:\wc"] ["C:\wc\.svn"; "C:\wc\.git"]
    [(svn_args "C:\wc\foo.txt" "svn", crlf_readout);
     (svn_args "C:\wc" "C:\tools\svn.exe", "svn: E155004: Working copy 'C:\wc' locked");
     (svn_args "C:\wc" "svn", "svn: E155007: 'C:\wc' is not a working copy");
     (svn_args "C:\wc" "C:\new\svn.exe", NL +:+ "M       a.txt" +:+ NL +:+ "A       b.txt");
     (["git"; "log"; "-1"; "C:\wc"], " " +:+ CR +:+ NL)] [].

(** The setting [svn_path] names a client that rejects the format of the
    working copy [C:\wc]; the [svn.exe] that comes with the package lists
    the file. *)
Definition bundled_os : OS :=
  Sample.os [] ["C:\wc\.svn"]
    [(svn_args "C:\wc\foo.txt" "C:\tools\svn.exe",
       "svn: E155036: Please see the 'svn upgrade' command");
     (svn_args "C:\wc\foo.txt" "C:\Sublime\Packages\Tortoise\svn\svn.exe",
       "M       foo.txt")] [].

Definition svn_settings : Settings :=
  {| svn_tortoiseproc_path := Some "C:\svn\TortoiseProc.exe";
     git_tortoiseproc_path := None; hg_hgtk_path := None;
     svn_path := Some "C:\tools\svn.exe"; git_tgit_path := None; cache_length := 5 |}.

(** A Git working copy [C:\proj] with the directory [C:\proj\sub];
    [TortoiseProc.exe] is set to [C:\git\TortoiseProc.exe], which makes
    [C:\git\tgit.exe] the client, answering [status --short] with
    [readout]. *)
Definition git_os (readout : string) : OS :=
  Sample.os ["C:\proj"; "C:\proj\sub"] ["C:\proj\.git"]
    [(["C:\git\tgit.exe"; "status"; "--short"], readout)] [].

Definition git_settings : Settings :=
  Sample.settings None (Some "C:\git\TortoiseProc.exe") None 5.

(** The active view shows [file]; nothing is selected in the side bar. *)
Definition editing (file : option string) : Window :=
  {| active_file := file; enable_menus := true |}.

End Demo.

(** * Properties *)

(** ** Facts about the string functions *)

Section PyFacts.

Import Py.

Lemma app_cons c s t : String c s +:+ t = String c (s +:+ t).
Proof. reflexivity. Qed.

Lemma app_empty_l t : "" +:+ t = t.
Proof. reflexivity. Qed.

Lemma app_empty_r s : s +:+ "" = s.
Proof. induction s as [|c s IH]; [done|]. by rewrite app_cons, IH. Qed.

Lemma app_assoc' a b c : (a +:+ b) +:+ c = a +:+ (b +:+ c).
Proof. induction a as [|x a IH]; [done|]. by rewrite !app_cons, IH. Qed.

Lemma has_char_app c a b : has_char c (a +:+ b) = has_char c a || has_char c b.
Proof.
  induction a as [|x a IH]; [done|].
  rewrite app_cons. simpl. rewrite IH. by destruct (bool_decide (c = x)).
Qed.

Lemma split_nonempty sep s : split sep s ≠ [].
Proof. destruct s as [|c s]; simpl; [done|]. by case_bool_decide. Qed.

Lemma split_no_sep sep s l : l ∈ split sep s → has_char sep l = false.
Proof.
  revert l. induction s as [|c s IH]; intros l; simpl.
  - intros ->%list_elem_of_singleton. done.
  - pose proof (split_nonempty sep s) as Hne.
    destruct (split sep s) as [|h t]; [done|]. simpl.
    case_bool_decide as Hc.
    + intros [->|Hin]%elem_of_cons; [done|]. by apply IH.
    + intros [->|Hin]%elem_of_cons.
      * simpl. rewrite bool_decide_eq_false_2 by congruence.
        apply IH. by left.
      * apply IH. by right.
Qed.

Lemma startswith_spec s pre : startswith s pre = true ↔ ∃ rest, s = pre +:+ rest.
Proof.
  revert s. induction pre as [|a pre IH]; intros s; simpl.
  - split; [intros _; by exists s|intros _; by destruct s].
  - destruct s as [|b s].
    + split; [done|]. by intros [rest ?].
    + simpl. rewrite andb_true_iff, bool_decide_eq_true, IH. split.
      * intros [-> [rest ->]]. by exists rest.
      * intros [rest Hr]. rewrite app_cons in Hr. injection Hr as -> ->. eauto.
Qed.

Lemma drop_app a b : drop (len a) (a +:+ b) = b.
Proof. induction a as [|c a IH]; [by destruct b|]. by rewrite app_cons. Qed.

(** Removing a leading [old] with [replace(old, '', 1)]. *)
Lemma replace_first_prefix old rest : replace_first old "" (old +:+ rest) = rest.
Proof.
  assert (startswith (old +:+ rest) old = true) as Hs
    by (apply startswith_spec; eauto).
  destruct old as [|c old].
  - by destruct rest.
  - rewrite app_cons in *. unfold replace_first; fold replace_first.
    rewrite Hs. rewrite <- app_cons. by rewrite drop_app.
Qed.

(** What [rstrip] removes is a tail of characters of the set. *)
Lemma rstrip_decompose P s :
  ∃ tail, s = rstrip P s +:+ tail ∧ all_chars P tail = true.
Proof.
  induction s as [|c s (tail & Hs & Ht)]; [by exists ""|]. simpl.
  destruct (rstrip P s) as [|d r] eqn:Hr.
  - rewrite app_empty_l in Hs. subst tail. destruct (P c) eqn:Hc.
    + exists (String c s). split; [done|]. simpl. by rewrite Hc, Ht.
    + by exists s.
  - exists tail. by rewrite app_cons, <- Hs.
Qed.

Lemma endswith_spec s suffix : endswith s suffix = true ↔ ends_with s suffix.
Proof.
  unfold ends_with. induction s as [|c s IH]; simpl.
  - rewrite orb_false_r, bool_decide_eq_true. split.
    + intros <-. by exists "".
    + intros [pre Heq]. destruct pre; [|done]. by rewrite app_empty_l in Heq.
  - rewrite orb_true_iff, bool_decide_eq_true, IH. split.
    + intros [<-|[pre ->]]; [by exists ""|]. by exists (String c pre).
    + intros [pre Heq]. destruct pre as [|d pre].
      * left. by rewrite app_empty_l in Heq.
      * rewrite app_cons in Heq. injection Heq as -> ->. right. eauto.
Qed.

Lemma not_endswith s suffix : endswith s suffix = false → ¬ ends_with s suffix.
Proof. intros H He%endswith_spec. congruence. Qed.

Lemma at_end_spec t : at_end t = true ↔ t = "" ∨ t = chr nl.
Proof.
  destruct t as [|c [|d t]]; simpl.
  - split; [intros _; by left|done].
  - rewrite bool_decide_eq_true. unfold chr.
    split; [intros ->; by right|intros [?|[= ->]]; done].
  - split; [done|intros [?|?]; done].
Qed.

(** An escaped string followed by [$] matches, at a given position, exactly
    the string itself at the end of the subject, or before a final newline. *)
Lemma re_match_escape s t :
  re_match_here (re_escape s ++ [EndAnchor]) t = true ↔ t = s ∨ t = s +:+ chr nl.
Proof.
  revert t. induction s as [|c s IH]; intros t; simpl.
  - rewrite andb_true_r. apply at_end_spec.
  - destruct t as [|d t]; [split; [done|intros [?|?]; done]|].
    rewrite andb_true_iff, bool_decide_eq_true, IH, app_cons. split.
    + intros [-> [-> | ->]]; auto.
    + intros [[= -> ->] | [= -> ->]]; auto.
Qed.

Lemma re_search_spec r l :
  re_search r l = true ↔ ∃ pre t, l = pre +:+ t ∧ re_match_here r t = true.
Proof.
  induction l as [|c l IH]; simpl.
  - rewrite orb_false_r. split.
    + intros H. by exists "", "".
    + intros (pre & t & Heq & Hm). destruct pre; [|done].
      rewrite app_empty_l in Heq. by subst.
  - rewrite orb_true_iff, IH. split.
    + intros [H|(pre & t & -> & Hm)].
      * by exists "", (String c l).
      * exists (String c pre), t. by rewrite app_cons.
    + intros (pre & t & Heq & Hm). destruct pre as [|d pre].
      * rewrite app_empty_l in Heq. subst. by left.
      * rewrite app_cons in Heq. injection Heq as -> ->. right. eauto.
Qed.

(** On a line without a newline, the search for [re.escape(s) + '$'] is the
    test that the line ends with [s]. *)
Lemma re_search_escape_end s line :
  has_char nl line = false →
  re_search (re_escape s ++ [EndAnchor]) line = true ↔ ends_with line s.
Proof.
  intros Hnl. rewrite re_search_spec. unfold ends_with. split.
  - intros (pre & t & -> & [->| ->]%re_match_escape); [eauto|].
    rewrite !has_char_app in Hnl.
    apply orb_false_elim in Hnl as [_ Hnl].
    apply orb_false_elim in Hnl as [_ Hnl]. by vm_compute in Hnl.
  - intros [pre ->]. exists pre, s. split; [done|]. apply re_match_escape. by left.
Qed.

End PyFacts.

(** ** The child-process runner and the line scans *)

Ltac unfold_M := unfold mbind, mret, M_bind, M_ret, raise, try_except in *.

Section Parsers.

Context (os : OS).

Lemma run_ok args cwd readout w :
  popen os args cwd = inr readout →
  NonInteractiveProcess_run os args cwd w
  = (Ok (normalize readout), spawn_world os args cwd w).
Proof. intros H. unfold NonInteractiveProcess_run. by rewrite H. Qed.

Lemma run_not_out_of_fuel args cwd w :
  (NonInteractiveProcess_run os args cwd w).1 ≠ OutOfFuel.
Proof. unfold NonInteractiveProcess_run. by destruct (popen os args cwd). Qed.

Lemma lines_of_no_nl readout l : l ∈ lines_of readout → Py.has_char Py.nl l = false.
Proof. apply split_no_sep. Qed.

Lemma lines_of_nonempty readout : lines_of readout = first_line readout :: tl (lines_of readout).
Proof.
  unfold first_line, lines_of.
  pose proof (split_nonempty Py.nl (normalize readout)).
  by destruct (Py.split Py.nl (normalize readout)).
Qed.

(** The loops skip a line exactly when it does not match. *)
Lemma skips_line_spec root path line :
  Py.has_char Py.nl line = false →
  skips_line root path line = false ↔ line_matches root path line.
Proof.
  intros Hnl. unfold skips_line, line_matches.
  rewrite andb_false_iff, negb_false_iff, bool_decide_eq_false.
  rewrite (re_search_escape_end _ _ Hnl). split.
  - intros [H|H]; [left|by right]. by destruct (decide (root = path)).
  - intros [H|H]; [left|by right]. by intros [].
Qed.

Lemma skips_line_true root path line :
  Py.has_char Py.nl line = false →
  skips_line root path line = true ↔ ¬ line_matches root path line.
Proof.
  intros Hnl. rewrite <- (skips_line_spec _ _ _ Hnl).
  by destruct (skips_line root path line).
Qed.

Lemma svn_scan_skip root path pre rest :
  (∀ l, l ∈ pre → l = "" ∨ skips_line root path l = true) →
  svn_scan root path (pre ++ rest) = svn_scan root path rest.
Proof.
  induction pre as [|l pre IH]; intros Hpre; [done|]. simpl.
  destruct (Hpre l) as [->|Hs]; [by left| |].
  - apply IH. intros. apply Hpre. by right.
  - destruct l; rewrite ?Hs; apply IH; intros; apply Hpre; by right.
Qed.

Lemma git_scan_skip root path pre rest :
  (∀ l, l ∈ pre → (Py.len l < 2)%nat ∨ skips_line root path l = true) →
  git_scan root path (pre ++ rest) = git_scan root path rest.
Proof.
  induction pre as [|l pre IH]; intros Hpre; [done|]. simpl.
  assert (git_scan root path (pre ++ rest) = git_scan root path rest) as ->.
  { apply IH. intros. apply Hpre. by right. }
  destruct l as [|c1 [|c2 tl]]; [done..|].
  destruct (Hpre (String c1 (String c2 tl))) as [Hlen|Hs]; [by left| |].
  - simpl in Hlen. lia.
  - by rewrite Hs.
Qed.

Lemma hg_scan_empty result : (∀ l, l ∈ result → l = "") → hg_scan result = "".
Proof.
  induction result as [|l result IH]; intros H; [done|]. simpl.
  rewrite (H l) by (by left). apply IH. intros. apply H. by right.
Qed.

(** *** The candidate loop of [SVN.check_status] *)

Lemma svn_candidates_accept root path p post res w readout :
  popen os (svn_args path p) root = inr readout →
  Py.startswith (first_line readout) "svn: E" = false →
  svn_candidates os root path (p :: post) res w
  = (Ok (Some (lines_of readout)), spawn_world os (svn_args path p) root w).
Proof.
  intros Hp Hs. simpl. unfold check_svn_vs_path. unfold_M.
  fold (svn_args path p). rewrite (run_ok _ _ _ _ Hp).
  fold (lines_of readout). pose proof (lines_of_nonempty readout) as Hl.
  destruct (lines_of readout) as [|first more]; [done|]. simpl in Hl. injection Hl as ->.
  by rewrite Hs.
Qed.

Lemma svn_candidates_too_old root path p post res w :
  svn_reports os root path p "E155021" →
  svn_candidates os root path (p :: post) res w
  = (Raise (Exception_ too_old_message), spawn_world os (svn_args path p) root w).
Proof.
  intros (readout & Hp & Hs & Hc). simpl. unfold check_svn_vs_path. unfold_M.
  fold (svn_args path p). rewrite (run_ok _ _ _ _ Hp).
  fold (lines_of readout). pose proof (lines_of_nonempty readout) as Hl.
  destruct (lines_of readout) as [|first more]; [done|]. simpl in Hl. injection Hl as ->.
  by rewrite Hs, Hc.
Qed.

Lemma svn_candidates_error root path p post res w readout code :
  popen os (svn_args path p) root = inr readout →
  Py.startswith (first_line readout) "svn: E" = true →
  error_code (first_line readout) = Some code → code ≠ "E155021" →
  svn_candidates os root path (p :: post) res w
  = svn_candidates os root path post (Some (lines_of readout))
      (spawn_world os (svn_args path p) root w).
Proof.
  intros Hp Hs Hc Hne. simpl. unfold check_svn_vs_path. unfold_M.
  fold (svn_args path p). rewrite (run_ok _ _ _ _ Hp).
  fold (lines_of readout). pose proof (lines_of_nonempty readout) as Hl.
  destruct (lines_of readout) as [|first more]; [done|]. simpl in Hl. injection Hl as ->.
  rewrite Hs, Hc. unfold check_errors. by rewrite bool_decide_eq_false_2 by done.
Qed.

Lemma svn_candidates_next root path p post res w code :
  svn_reports os root path p code → code ≠ "E155021" →
  ∃ res', svn_candidates os root path (p :: post) res w
          = svn_candidates os root path post res' (spawn_world os (svn_args path p) root w).
Proof.
  intros (readout & Hp & Hs & Hc) Hne. exists (Some (lines_of readout)).
  by apply svn_candidates_error with code.
Qed.

Lemma svn_candidates_skip root path pre rest res w :
  (∀ q, q ∈ pre → ∃ code, svn_reports os root path q code ∧ code ≠ "E155021") →
  ∃ res', svn_candidates os root path (pre ++ rest) res w
          = svn_candidates os root path rest res' (svn_spawns os root path pre w).
Proof.
  revert res w. induction pre as [|q pre IH]; intros res w Hpre.
  - by exists res.
  - destruct (Hpre q) as (code & Hr & Hne); [by left|].
    change ((q :: pre) ++ rest) with (q :: (pre ++ rest)).
    destruct (svn_candidates_next root path q (pre ++ rest) res w code Hr Hne)
      as [res1 ->].
    destruct (IH res1 (spawn_world os (svn_args path q) root w)) as [res2 ->].
    { intros. apply Hpre. by right. }
    by exists res2.
Qed.

Lemma svn_spawns_snoc root path pre p w :
  svn_spawns os root path (pre ++ [p]) w
  = spawn_world os (svn_args path p) root (svn_spawns os root path pre w).
Proof. unfold svn_spawns. by rewrite foldl_snoc. Qed.

Lemma svn_spawns_spawned root path l w :
  spawned (svn_spawns os root path l w)
  = rev (map (fun q => (svn_args path q, root)) l) ++ spawned w.
Proof.
  revert w. induction l as [|q l IH]; intros w; [done|].
  unfold svn_spawns in *. simpl. rewrite IH. simpl. by rewrite <- app_assoc.
Qed.

End Parsers.

(** ** The parsers *)

Section StatusParsers.

Context (os : OS).

(** The result of [SVN.check_status] once a candidate answers without an
    [svn: E] line. *)
Lemma svn_check_status_accept root path pre p post w readout :
  (∀ q, q ∈ pre → ∃ code, svn_reports os root path q code ∧ code ≠ "E155021") →
  popen os (svn_args path p) root = inr readout →
  Py.startswith (first_line readout) "svn: E" = false →
  check_status os (SVN root (pre ++ p :: post)) path w
  = (Ok (svn_scan root path (lines_of readout)),
     svn_spawns os root path (pre ++ [p]) w).
Proof.
  intros Hpre Hp Hs. unfold check_status. unfold_M.
  destruct (svn_candidates_skip os root path pre (p :: post) None w Hpre) as [res ->].
  rewrite (svn_candidates_accept os root path p post res _ readout Hp Hs).
  by rewrite svn_spawns_snoc.
Qed.

(** The same when the last candidate reports an error other than
    [E155021]: its output is parsed all the same. *)
Lemma svn_check_status_last_error root path pre p w readout code :
  (∀ q, q ∈ pre → ∃ code, svn_reports os root path q code ∧ code ≠ "E155021") →
  popen os (svn_args path p) root = inr readout →
  Py.startswith (first_line readout) "svn: E" = true →
  error_code (first_line readout) = Some code → code ≠ "E155021" →
  check_status os (SVN root (pre ++ [p])) path w
  = (Ok (svn_scan root path (lines_of readout)),
     svn_spawns os root path (pre ++ [p]) w).
Proof.
  intros Hpre Hp Hs Hc Hne. unfold check_status. unfold_M.
  destruct (svn_candidates_skip os root path pre [p] None w Hpre) as [res ->].
  rewrite (svn_candidates_error os root path p [] res _ readout code Hp Hs Hc Hne).
  simpl. unfold_M. by rewrite svn_spawns_snoc.
Qed.

Lemma svn_check_status_too_old root path pre p post w :
  (∀ q, q ∈ pre → ∃ code, svn_reports os root path q code ∧ code ≠ "E155021") →
  svn_reports os root path p "E155021" →
  check_status os (SVN root (pre ++ p :: post)) path w
  = (Raise (Exception_ too_old_message), svn_spawns os root path (pre ++ [p]) w).
Proof.
  intros Hpre Hp. unfold check_status. unfold_M.
  destruct (svn_candidates_skip os root path pre (p :: post) None w Hpre) as [res ->].
  rewrite (svn_candidates_too_old os root path p post res _ Hp).
  by rewrite svn_spawns_snoc.
Qed.

Lemma git_check_status_file git_path root path w readout :
  isdir os path = false →
  popen os [git_path; "status"; "--short"] root = inr readout →
  check_status os (Git git_path root) path w
  = (Ok (git_scan root path (Py.split Py.nl (Py.strip (normalize readout)))),
     spawn_world os [git_path; "status"; "--short"] root w).
Proof.
  intros Hd Hp. unfold check_status. rewrite Hd. unfold_M.
  by rewrite (run_ok os _ _ _ _ Hp).
Qed.

Lemma hg_check_status_file hg_path root path w readout :
  isdir os path = false →
  popen os [hg_path; "status"; path] root = inr readout →
  check_status os (Hg hg_path root) path w
  = (Ok (hg_scan (lines_of readout)), spawn_world os [hg_path; "status"; path] root w).
Proof.
  intros Hd Hp. unfold check_status. rewrite Hd. unfold_M.
  by rewrite (run_ok os _ _ _ _ Hp).
Qed.

Lemma strip_lines_no_nl s l : l ∈ Py.split Py.nl s → Py.has_char Py.nl l = false.
Proof. apply split_no_sep. Qed.

End StatusParsers.

(** C1 does not hold of the code: the relative path is searched for at
    the end of the line with nothing to mark where it begins.  With lines
    for [barfoo.txt] (modified) and [foo.txt] (added), the query for
    [foo.txt] answers [M], the status character of the [barfoo.txt] line,
    in [SVN.check_status] and in [Git.check_status] alike. *)
Theorem svn_status_barfoo_line_taken :
  lines_of Sample.svn_listing = ["M       barfoo.txt"; "A       foo.txt"] ∧
  path_without_root "C:\wc" "C:\wc\foo.txt" = "foo.txt" ∧
  (check_status Sample.svn_os (SVN "C:\wc" ["svn"]) "C:\wc\foo.txt" Sample.w0).1 = Ok "M" ∧
  (check_status (Sample.git_os ("M  barfoo.txt" +:+ NL +:+ "A  foo.txt"))
     (Git "git" "C:\proj") "C:\proj\foo.txt" Sample.w0).1 = Ok "M".
Proof. by vm_compute. Qed.

(** What [upper] makes of a letter [a] to [z] and of the other characters
    up to U+007F. *)
Lemma upper_ascii c :
  ((97 ≤ nat_of_ascii c ≤ 122)%nat →
   Py.upper (Py.chr c) = Py.chr (ascii_of_nat (nat_of_ascii c - 32))) ∧
  ((nat_of_ascii c < 97)%nat ∨ (122 < nat_of_ascii c < 128)%nat →
   Py.upper (Py.chr c) = Py.chr c).
Proof.
  unfold Py.upper, Py.chr, Py.upper_char. rewrite app_empty_r. split.
  - intros [H1 H2]. apply Nat.leb_le in H1, H2. by rewrite H1, H2.
  - intros H.
    assert ((97 <=? nat_of_ascii c)%nat && (nat_of_ascii c <=? 122)%nat = false) as ->.
    { apply andb_false_iff. rewrite Nat.leb_gt, Nat.leb_gt. lia. }
    assert ((224 <=? nat_of_ascii c)%nat = false) as -> by (apply Nat.leb_gt; lia).
    assert ((nat_of_ascii c =? 223)%nat = false) as -> by (apply Nat.eqb_neq; lia).
    done.
Qed.

(** C6: for a file, [Git.check_status] answers with column 1 of the first
    matching line of [git status --short], or with column 2 when column 1
    is blank, in upper case: a letter [a] to [z] comes out as the capital
    letter, any other character up to U+007F as it is.  An output
    consisting of the line [ M path/to/file.txt] gives [M],
    [A  path/to/file.txt] gives [A], and [ m path/to/file.txt] gives [M]. *)
Theorem git_status_column
    (os : OS) (git_path root path : string) (w : World) (readout : string) :
  isdir os path = false →
  popen os [git_path; "status"; "--short"] root = inr readout →
  (∀ pre c1 c2 tl post c,
     Py.split Py.nl (Py.strip (normalize readout))
       = pre ++ String c1 (String c2 tl) :: post →
     (∀ l, l ∈ pre → (Py.len l < 2)%nat ∨ ¬ line_matches root path l) →
     line_matches root path (String c1 (String c2 tl)) →
     c = (if bool_decide (c1 = Py.space) then c2 else c1) →
     Py.upper_in_model c = true →
     (check_status os (Git git_path root) path w).1 = Ok (Py.upper (Py.chr c)) ∧
     ((97 ≤ nat_of_ascii c ≤ 122)%nat →
      (check_status os (Git git_path root) path w).1
      = Ok (Py.chr (ascii_of_nat (nat_of_ascii c - 32)))) ∧
     ((nat_of_ascii c < 97)%nat ∨ (122 < nat_of_ascii c < 128)%nat →
      (check_status os (Git git_path root) path w).1 = Ok (Py.chr c))) ∧
  (path = root +:+ BS +:+ "path/to/file.txt" →
   (readout = " M path/to/file.txt" →
    (check_status os (Git git_path root) path w).1 = Ok "M") ∧
   (readout = "A  path/to/file.txt" →
    (check_status os (Git git_path root) path w).1 = Ok "A") ∧
   (readout = " m path/to/file.txt" →
    (check_status os (Git git_path root) path w).1 = Ok "M")).
Proof.
  intros Hd Hp.
  assert (∀ pre c1 c2 tl post,
     Py.split Py.nl (Py.strip (normalize readout))
       = pre ++ String c1 (String c2 tl) :: post →
     (∀ l, l ∈ pre → (Py.len l < 2)%nat ∨ ¬ line_matches root path l) →
     line_matches root path (String c1 (String c2 tl)) →
     (check_status os (Git git_path root) path w).1
     = Ok (Py.upper (Py.chr (if bool_decide (c1 = Py.space) then c2 else c1))))
    as Hgen.
  { intros pre c1 c2 tl post Hl Hpre Hm.
    rewrite (git_check_status_file os _ _ _ _ _ Hd Hp). simpl. f_equal.
    rewrite Hl, git_scan_skip.
    - simpl. apply skips_line_spec in Hm as ->.
      + by destruct (decide (c1 = Py.space));
          [rewrite bool_decide_eq_false_2, bool_decide_eq_true_2 by auto
          |rewrite bool_decide_eq_true_2, bool_decide_eq_false_2 by auto].
      + apply (strip_lines_no_nl (Py.strip (normalize readout))).
        rewrite Hl. apply elem_of_app. right. by left.
    - intros l Hin. destruct (Hpre l Hin) as [?|Hn]; [by left|right].
      apply skips_line_true; [|done].
      apply (strip_lines_no_nl (Py.strip (normalize readout))).
      rewrite Hl. apply elem_of_app. by left. }
  split.
  { intros pre c1 c2 tl post c Hl Hpre Hm -> _.
    rewrite (Hgen pre c1 c2 tl post Hl Hpre Hm).
    destruct (upper_ascii (if bool_decide (c1 = Py.space) then c2 else c1)) as [Hlo Hid].
    split; [done|]. split; intros H; f_equal; auto. }
  intros Hpath.
  assert (path_without_root root path = "path/to/file.txt") as Hrel.
  { unfold path_without_root. rewrite Hpath, <- app_assoc'. apply replace_first_prefix. }
  split; [|split]; intros ->.
  - apply (Hgen [] "M"%char " "%char "path/to/file.txt" []); [done|by intros ? ?%elem_of_nil|].
    right. rewrite Hrel. by exists "M ".
  - apply (Hgen [] "A"%char " "%char " path/to/file.txt" []); [done|by intros ? ?%elem_of_nil|].
    right. rewrite Hrel. by exists "A  ".
  - apply (Hgen [] "m"%char " "%char "path/to/file.txt" []); [done|by intros ? ?%elem_of_nil|].
    right. rewrite Hrel. by exists "m ".
Qed.

(** The lower-case example of C6 on the sample working copy. *)
Lemma git_status_column_witness :
  (check_status (Sample.git_os " m path/to/file.txt") (Git "git" "C:\proj")
     "C:\proj\path/to/file.txt" Sample.w0).1 = Ok "M".
Proof.
  refine (proj2 (proj2 (proj2 (git_status_column (Sample.git_os " m path/to/file.txt")
            "git" "C:\proj" "C:\proj\path/to/file.txt" Sample.w0 " m path/to/file.txt"
            _ _) _)) _); reflexivity.
Defined.

(** C8: a candidate whose first output line reports [E155021] makes
    [SVN.check_status] raise the too-old-client exception; the candidates
    are run in order, those before it having reported other [svn: E] errors,
    and the first one whose first line is no [svn: E] line is the one whose
    output is parsed.  No later candidate is run in either case. *)
Theorem svn_too_old_client
    (os : OS) (root path : string) (pre : list string) (p : string)
    (post : list string) (w : World) :
  (∀ q, q ∈ pre → ∃ code, svn_reports os root path q code ∧ code ≠ "E155021") →
  (svn_reports os root path p "E155021" →
   check_status os (SVN root (pre ++ p :: post)) path w
   = (Raise (Exception_ too_old_message), svn_spawns os root path (pre ++ [p]) w)) ∧
  (∀ readout,
     popen os (svn_args path p) root = inr readout →
     Py.startswith (first_line readout) "svn: E" = false →
     check_status os (SVN root (pre ++ p :: post)) path w
     = (Ok (svn_scan root path (lines_of readout)),
        svn_spawns os root path (pre ++ [p]) w)) ∧
  spawned (svn_spawns os root path (pre ++ [p]) w)
  = (svn_args path p, root) :: rev (map (fun q => (svn_args path q, root)) pre)
      ++ spawned w.
Proof.
  intros Hpre. split; [|split].
  - by apply svn_check_status_too_old.
  - intros readout. by apply svn_check_status_accept.
  - rewrite svn_spawns_spawned, map_app, rev_app_distr. done.
Qed.

(** A line that begins [svn: E155021:] reports the code [E155021]. *)
Lemma error_code_E155021 rest : error_code ("svn: E155021:" +:+ rest) = Some "E155021".
Proof.
  unfold error_code. rewrite !app_cons, app_empty_l. simpl.
  pose proof (split_nonempty ":" rest). by destruct (Py.split ":" rest).
Qed.

(** The sample with two clients: the first reports [E155004] and is passed
    over, the second reports [E155021]. *)
Lemma svn_too_old_client_witness :
  check_status Sample.svn_old_os (SVN "C:\wc" (["C:\tools\svn.exe"] ++ "svn" :: ["svn2"]))
    "C:\wc\foo.txt" Sample.w0
  = (Raise (Exception_ too_old_message),
     svn_spawns Sample.svn_old_os "C:\wc" "C:\wc\foo.txt" (["C:\tools\svn.exe"] ++ ["svn"])
       Sample.w0).
Proof.
  refine (proj1 (svn_too_old_client Sample.svn_old_os "C:\wc" "C:\wc\foo.txt"
                   ["C:\tools\svn.exe"] "svn" ["svn2"] Sample.w0 _) _).
  - intros q ->%list_elem_of_singleton. exists "E155004". split; [|done].
    eexists. split; [reflexivity|]. split; reflexivity.
  - eexists. split; [reflexivity|]. split; [reflexivity|].
    apply (error_code_E155021
             (" This client is too old to work with the working copy at")).
Defined.

(** C7, as the code has it: an empty output, or one without a matching
    line, gives the status [''] for the Git and Mercurial parsers when the
    queried path is a file, and for the SVN parser when the output parsed is
    that of a candidate whose first line is no [svn: E] line, or that of the
    last candidate with an error code other than [E155021]. *)
Theorem no_matching_line_gives_empty_status (os : OS) (root path : string) (w : World) :
  (∀ pre p post readout,
     (∀ q, q ∈ pre → ∃ code, svn_reports os root path q code ∧ code ≠ "E155021") →
     popen os (svn_args path p) root = inr readout →
     (Py.startswith (first_line readout) "svn: E" = false ∨
      post = [] ∧ ∃ code, error_code (first_line readout) = Some code ∧
                          code ≠ "E155021") →
     (readout = "" ∨
      ∀ l, l ∈ lines_of readout → l = "" ∨ ¬ line_matches root path l) →
     (check_status os (SVN root (pre ++ p :: post)) path w).1 = Ok "") ∧
  (∀ git_path readout,
     isdir os path = false →
     popen os [git_path; "status"; "--short"] root = inr readout →
     (readout = "" ∨
      ∀ l, l ∈ Py.split Py.nl (Py.strip (normalize readout)) →
           (Py.len l < 2)%nat ∨ ¬ line_matches root path l) →
     (check_status os (Git git_path root) path w).1 = Ok "") ∧
  (∀ hg_path readout,
     isdir os path = false →
     popen os [hg_path; "status"; path] root = inr readout →
     (readout = "" ∨ ∀ l, l ∈ lines_of readout → l = "") →
     (check_status os (Hg hg_path root) path w).1 = Ok "").
Proof.
  split; [|split].
  - intros pre p post readout Hpre Hp Hs Hno.
    assert ((check_status os (SVN root (pre ++ p :: post)) path w).1
            = Ok (svn_scan root path (lines_of readout))) as ->.
    { destruct (Py.startswith (first_line readout) "svn: E") eqn:Hst.
      - destruct Hs as [?|(-> & code & Hc & Hne)]; [done|].
        by rewrite (svn_check_status_last_error os _ _ _ _ _ _ _ Hpre Hp Hst Hc Hne).
      - by rewrite (svn_check_status_accept os _ _ _ _ _ _ _ Hpre Hp Hst). }
    f_equal. destruct Hno as [->|Hno]; [done|].
    rewrite <- (app_nil_r (lines_of readout)), svn_scan_skip; [done|].
    intros l Hin. destruct (Hno l Hin) as [?|Hn]; [by left|right].
    apply skips_line_true; [|done]. by apply (lines_of_no_nl readout).
  - intros git_path readout Hd Hp Hno.
    rewrite (git_check_status_file os _ _ _ _ _ Hd Hp). simpl. f_equal.
    destruct Hno as [->|Hno]; [done|].
    rewrite <- (app_nil_r (Py.split _ _)), git_scan_skip; [done|].
    intros l Hin. destruct (Hno l Hin) as [?|Hn]; [by left|right].
    apply skips_line_true; [|done].
    by apply (strip_lines_no_nl (Py.strip (normalize readout))).
  - intros hg_path readout Hd Hp Hno.
    rewrite (hg_check_status_file os _ _ _ _ _ Hd Hp). simpl. f_equal.
    destruct Hno as [->|Hno]; [done|]. by apply hg_scan_empty.
Qed.

(** [git status --short] names another file only. *)
Lemma no_matching_line_gives_empty_status_witness :
  (check_status (Sample.git_os " M other.txt") (Git "git" "C:\proj") "C:\proj\a.txt"
     Sample.w0).1 = Ok "".
Proof.
  refine (proj1 (proj2 (no_matching_line_gives_empty_status
            (Sample.git_os " M other.txt") "C:\proj" "C:\proj\a.txt" Sample.w0))
            "git" " M other.txt" _ _ _); [reflexivity..|].
  right. intros l ->%list_elem_of_singleton. right.
  intros [?|He]; [done|]. by apply not_endswith in He.
Defined.

(** C7 fails as stated for a directory: [git log -1] printing nothing makes
    [Git.check_status] answer [?], not ['']. *)
Lemma git_directory_without_history :
  isdir (Sample.git_os "") "C:\proj\sub" = true ∧
  popen (Sample.git_os "") ["git"; "log"; "-1"; "C:\proj\sub"] "C:\proj" = inr "" ∧
  (check_status (Sample.git_os "") (Git "git" "C:\proj") "C:\proj\sub" Sample.w0).1
  = Ok "?".
Proof. by vm_compute. Qed.

(** ** The status cache *)

Section Cache.

Context (os : OS) (st : Settings).

Lemma run_frame args cwd w :
  same_plugin_state w (NonInteractiveProcess_run os args cwd w).2.
Proof. unfold NonInteractiveProcess_run. by destruct (popen os args cwd). Qed.

Lemma svn_candidates_frame root path svn_paths res w :
  same_plugin_state w (svn_candidates os root path svn_paths res w).2 ∧
  (svn_candidates os root path svn_paths res w).1 ≠ OutOfFuel.
Proof.
  revert res w. induction svn_paths as [|p rest IH]; intros res w; simpl; [done|].
  unfold check_svn_vs_path. unfold_M. unfold NonInteractiveProcess_run.
  destruct (popen os [p; "status"; path] root) as [e|readout]; [done|].
  destruct (Py.split Py.nl (normalize readout)) as [|first more]; [done|].
  destruct (Py.startswith first "svn: E"); [|done].
  destruct (error_code first) as [code|]; [|done].
  unfold check_errors. case_bool_decide; [done|].
  destruct (IH (Some (first :: more))
              (spawn_world os [p; "status"; path] root w)) as [(? & ? & ?) ?].
  done.
Qed.

Lemma check_status_frame vcs path w :
  same_plugin_state w (check_status os vcs path w).2 ∧
  (check_status os vcs path w).1 ≠ OutOfFuel.
Proof.
  destruct vcs as [root svn_paths|git_path root|hg_path root]; unfold check_status.
  - unfold_M.
    pose proof (svn_candidates_frame root path svn_paths None w) as [Hf Hne].
    destruct (svn_candidates os root path svn_paths None w) as [[[r|]|e|] w1]; done.
  - unfold_M. destruct (isdir os path).
    + pose proof (run_frame [git_path; "log"; "-1"; path] root w) as Hf.
      pose proof (run_not_out_of_fuel os [git_path; "log"; "-1"; path] root w) as Hne.
      destruct (NonInteractiveProcess_run os _ root w) as [[out|e|] w1]; [|done..].
      by case_bool_decide.
    + pose proof (run_frame [git_path; "status"; "--short"] root w) as Hf.
      pose proof (run_not_out_of_fuel os [git_path; "status"; "--short"] root w) as Hne.
      by destruct (NonInteractiveProcess_run os _ root w) as [[out|e|] w1].
  - unfold_M. destruct (isdir os path).
    + pose proof (run_frame [hg_path; "log"; "-l"; "1"; DQ +:+ path +:+ DQ] root w) as Hf.
      pose proof (run_not_out_of_fuel os
                    [hg_path; "log"; "-l"; "1"; DQ +:+ path +:+ DQ] root w) as Hne.
      destruct (NonInteractiveProcess_run os _ root w) as [[out|e|] w1]; [|done..].
      by case_bool_decide.
    + pose proof (run_frame [hg_path; "status"; path] root w) as Hf.
      pose proof (run_not_out_of_fuel os [hg_path; "status"; path] root w) as Hne.
      by destruct (NonInteractiveProcess_run os _ root w) as [[out|e|] w1].
Qed.

(** The candidate loop starts one process per candidate at most, the
    other parsers one. *)
Lemma svn_candidates_spawn_bound root path svn_paths : ∀ res w,
  (length (spawned (svn_candidates os root path svn_paths res w).2)
   ≤ length (spawned w) + length svn_paths)%nat.
Proof.
  induction svn_paths as [|p rest IH]; intros res w; simpl; [lia|].
  unfold check_svn_vs_path. unfold_M. unfold NonInteractiveProcess_run.
  destruct (popen os [p; "status"; path] root) as [e|readout]; simpl; [lia|].
  destruct (Py.split Py.nl (normalize readout)) as [|first more]; simpl; [lia|].
  destruct (Py.startswith first "svn: E"); simpl; [|lia].
  destruct (error_code first) as [code|]; simpl; [|lia].
  unfold check_errors. case_bool_decide; simpl; [lia|].
  pose proof (IH (Some (first :: more))
                (spawn_world os [p; "status"; path] root w)) as Hle.
  simpl in Hle. lia.
Qed.

Lemma run_spawn_bound args cwd w :
  (length (spawned (NonInteractiveProcess_run os args cwd w).2)
   ≤ length (spawned w) + 1)%nat.
Proof.
  unfold NonInteractiveProcess_run. destruct (popen os args cwd); simpl; lia.
Qed.

Lemma check_status_spawn_bound vcs path w :
  (length (spawned (check_status os vcs path w).2)
   ≤ length (spawned w) + max_spawns vcs)%nat.
Proof.
  destruct vcs as [root svn_paths|git_path root|hg_path root]; unfold check_status.
  - unfold_M.
    pose proof (svn_candidates_spawn_bound root path svn_paths None w) as Hle.
    destruct (svn_candidates os root path svn_paths None w) as [[[r|]|e|] w1]; done.
  - unfold_M. destruct (isdir os path).
    + pose proof (run_spawn_bound [git_path; "log"; "-1"; path] root w) as Hle.
      destruct (NonInteractiveProcess_run os _ root w) as [[out|e|] w1]; [|done..].
      by case_bool_decide.
    + pose proof (run_spawn_bound [git_path; "status"; "--short"] root w) as Hle.
      by destruct (NonInteractiveProcess_run os _ root w) as [[out|e|] w1].
  - unfold_M. destruct (isdir os path).
    + pose proof (run_spawn_bound [hg_path; "log"; "-l"; "1"; DQ +:+ path +:+ DQ] root w)
        as Hle.
      destruct (NonInteractiveProcess_run os _ root w) as [[out|e|] w1]; [|done..].
      by case_bool_decide.
    + pose proof (run_spawn_bound [hg_path; "status"; path] root w) as Hle.
      by destruct (NonInteractiveProcess_run os _ root w) as [[out|e|] w1].
Qed.

(** What [fetch_status] does, by the outcome of the parser. *)
Lemma fetch_status_ok vcs path w s wc :
  check_status os vcs path w = (Ok s, wc) →
  fetch_status os st vcs path w = (Ok (Some s), stored st path (Some s) [] wc).
Proof. intros H. unfold fetch_status. unfold_M. by rewrite H. Qed.

Lemma fetch_status_raise vcs path w e wc :
  check_status os vcs path w = (Raise e, wc) →
  fetch_status os st vcs path w = (Ok None, stored st path None [exn_str e] wc).
Proof. intros H. unfold fetch_status. unfold_M. by rewrite H. Qed.

Lemma process_status_hit vcs path w e :
  cache_hit st path w = Some e →
  process_status os st vcs path w = (Ok (status e), w).
Proof.
  unfold cache_hit, process_status, cache_get, time_time. unfold_M.
  destruct (file_status_cache w !! path) as [e'|]; [|done].
  case_bool_decide; [|done]. by intros [= ->].
Qed.

Lemma process_status_miss vcs path w :
  cache_hit st path w = None →
  process_status os st vcs path w = fetch_status os st vcs path w.
Proof.
  unfold cache_hit, process_status, cache_get, time_time. unfold_M.
  destruct (file_status_cache w !! path) as [e'|]; [|done].
  by case_bool_decide.
Qed.

(** A lookup makes at most one parser call, and always returns. *)
Lemma process_status_checks vcs path w :
  ∃ r w', process_status os st vcs path w = (Ok r, w') ∧
          (status_checks w' ≤ S (status_checks w))%nat.
Proof.
  destruct (cache_hit st path w) as [e|] eqn:Hc.
  - rewrite (process_status_hit _ _ _ _ Hc). eauto.
  - rewrite (process_status_miss _ _ _ Hc).
    pose proof (check_status_frame vcs path w) as [(_ & _ & Hn) Hne].
    destruct (check_status os vcs path w) as [[s|e|] wc] eqn:Hcs; [| |done].
    + rewrite (fetch_status_ok _ _ _ _ _ Hcs). do 2 eexists. split; [done|].
      simpl in *. lia.
    + rewrite (fetch_status_raise _ _ _ _ _ Hcs). do 2 eexists. split; [done|].
      simpl in *. lia.
Qed.

(** A lookup starts no more processes than one parser call. *)
Lemma process_status_spawn_bound vcs path w :
  (length (spawned (process_status os st vcs path w).2)
   ≤ length (spawned w) + max_spawns vcs)%nat.
Proof.
  destruct (cache_hit st path w) as [e|] eqn:Hc.
  - rewrite (process_status_hit _ _ _ _ Hc). simpl. lia.
  - rewrite (process_status_miss _ _ _ Hc).
    pose proof (check_status_spawn_bound vcs path w) as Hle.
    pose proof (check_status_frame vcs path w) as [_ Hne].
    destruct (check_status os vcs path w) as [[s|e|] wc] eqn:Hcs; [| |done].
    + by rewrite (fetch_status_ok _ _ _ _ _ Hcs).
    + by rewrite (fetch_status_raise _ _ _ _ _ Hcs).
Qed.

End Cache.

(** C5: when the parser raises during a lookup that misses the cache,
    [process_status] shows the error in a dialog, raises nothing, returns
    [None], and stores an entry for the path with status [None] and expiry
    [now + cache_length]. *)
Theorem parser_error_is_shown_and_cached
    (os : OS) (st : Settings) (vcs : Vcs) (path : string) (w wc : World) (e : exn) :
  cache_hit st path w = None →
  check_status os vcs path w = (Raise e, wc) →
  ∃ w',
    process_status os st vcs path w = (Ok None, w') ∧
    dialogs w' = exn_str e :: dialogs w ∧
    file_status_cache w'
    = <[path := {| time := clock w' + cache_length st; status := None |}]>
        (file_status_cache w) ∧
    status_checks w' = S (status_checks w) ∧
    clock w' = clock wc ∧ spawned w' = spawned wc.
Proof.
  intros Hmiss Hcs.
  pose proof (check_status_frame os vcs path w) as [(Hc & Hd & Hn) _].
  rewrite Hcs in Hc, Hd, Hn. simpl in *.
  exists (stored st path None [exn_str e] wc).
  rewrite (process_status_miss _ _ _ _ _ Hmiss), (fetch_status_raise _ _ _ _ _ _ _ Hcs).
  simpl. by rewrite Hc, Hd, Hn.
Qed.

(** The too-old client of the sample, met through the cache. *)
Lemma parser_error_is_shown_and_cached_witness :
  ∃ w',
    process_status Sample.svn_old_os (Sample.settings None None None 5)
      (SVN "C:\wc" ["C:\tools\svn.exe"; "svn"]) "C:\wc\foo.txt" Sample.w0 = (Ok None, w') ∧
    dialogs w' = exn_str (Exception_ too_old_message) :: dialogs Sample.w0 ∧
    file_status_cache w'
    = <["C:\wc\foo.txt" := {| time := clock w' + 5; status := None |}]>
        (file_status_cache Sample.w0) ∧
    status_checks w' = S (status_checks Sample.w0) ∧
    clock w' = 2 ∧
    spawned w' = [(svn_args "C:\wc\foo.txt" "svn", "C:\wc");
                  (svn_args "C:\wc\foo.txt" "C:\tools\svn.exe", "C:\wc")].
Proof.
  apply (parser_error_is_shown_and_cached Sample.svn_old_os
           (Sample.settings None None None 5)
           (SVN "C:\wc" ["C:\tools\svn.exe"; "svn"]) "C:\wc\foo.txt" Sample.w0
           (svn_spawns Sample.svn_old_os "C:\wc" "C:\wc\foo.txt"
              ["C:\tools\svn.exe"; "svn"] Sample.w0)
           (Exception_ too_old_message)); reflexivity.
Defined.

(** C9 does not hold of the code as it counts processes: one
    [check_status] call of the SVN parser starts a process for each
    candidate client it tries.  The configured client rejects the working
    copy, the next one lists the file: two lookups within the lifetime make
    one [check_status] call, and two child processes were started. *)
Lemma two_lookups_spawn_two_processes :
  ∃ w1 w2,
    process_status Sample.svn_fallback_os Sample.st5
      (SVN "C:\wc" ["C:\tools\svn.exe"; "svn"]) "C:\wc\foo.txt" Sample.w0
    = (Ok (Some "M"), w1) ∧
    0 ≤ 3 < cache_length Sample.st5 ∧
    process_status Sample.svn_fallback_os Sample.st5
      (SVN "C:\wc" ["C:\tools\svn.exe"; "svn"]) "C:\wc\foo.txt" (elapse 3 w1)
    = (Ok (Some "M"), w2) ∧
    status_checks Sample.w0 = 0%nat ∧ status_checks w2 = 1%nat ∧
    spawned Sample.w0 = [] ∧
    spawned w2 = [(svn_args "C:\wc\foo.txt" "svn", "C:\wc");
                  (svn_args "C:\wc\foo.txt" "C:\tools\svn.exe", "C:\wc")].
Proof.
  do 2 eexists. split; [by vm_compute|].
  split; [simpl; lia|]. by vm_compute.
Qed.

(** C9, as the code has it: of two lookups for one path, the second made
    less than [cache_length] after the first returned, at most one calls
    [check_status], and the two together start no more child processes than
    one [check_status] call can: one for Git and Mercurial, one for each
    candidate client for SVN.  When the first lookup called [check_status],
    the second is answered from the cache: same status, no parser call, no
    child process. *)
Theorem two_lookups_within_ttl_check_once
    (os1 os2 : OS) (st : Settings) (vcs1 vcs2 : Vcs) (path : string)
    (w0 w1 w2 : World) (r1 r2 : result (option string)) (d : Z) :
  process_status os1 st vcs1 path w0 = (r1, w1) →
  0 ≤ d < cache_length st →
  process_status os2 st vcs2 path (elapse d w1) = (r2, w2) →
  (status_checks w2 ≤ status_checks w0 + 1)%nat ∧
  (length (spawned w2)
   ≤ length (spawned w0) + Nat.max (max_spawns vcs1) (max_spawns vcs2))%nat ∧
  (cache_hit st path w0 = None →
   status_checks w1 = S (status_checks w0) ∧ r2 = r1 ∧ w2 = elapse d w1 ∧
   spawned w2 = spawned w1).
Proof.
  intros H1 Hd H2.
  destruct (cache_hit st path w0) as [e|] eqn:Hc0.
  - rewrite (process_status_hit _ _ _ _ _ _ Hc0) in H1. injection H1 as <- <-.
    split; [|split; [|done]].
    + destruct (process_status_checks os2 st vcs2 path (elapse d w0))
        as (r & w' & Hp & Hle).
      rewrite Hp in H2. injection H2 as <- <-. simpl in Hle. lia.
    + pose proof (process_status_spawn_bound os2 st vcs2 path (elapse d w0)) as Hle.
      rewrite H2 in Hle. simpl in Hle. lia.
  - pose proof (process_status_spawn_bound os1 st vcs1 path w0) as Hsp.
    rewrite H1 in Hsp. simpl in Hsp.
    rewrite (process_status_miss _ _ _ _ _ Hc0) in H1.
    pose proof (check_status_frame os1 vcs1 path w0) as [(_ & _ & Hn) Hne].
    assert (∃ s wc sh, r1 = Ok s ∧ w1 = stored st path s sh wc ∧
                       status_checks wc = status_checks w0)
      as (s & wc & sh & -> & -> & Hnc).
    { destruct (check_status os1 vcs1 path w0) as [[s|e|] wc] eqn:Hcs; [| |done].
      - rewrite (fetch_status_ok _ _ _ _ _ _ _ Hcs) in H1. injection H1 as <- <-.
        by exists (Some s), wc, [].
      - rewrite (fetch_status_raise _ _ _ _ _ _ _ Hcs) in H1. injection H1 as <- <-.
        by exists None, wc, [exn_str e]. }
    assert (cache_hit st path (elapse d (stored st path s sh wc))
            = Some {| time := clock wc + cache_length st; status := s |}) as Hhit.
    { unfold cache_hit. simpl. rewrite lookup_insert_eq. simpl.
      rewrite bool_decide_eq_true_2; [done|lia]. }
    rewrite (process_status_hit _ _ _ _ _ _ Hhit) in H2. injection H2 as <- <-.
    simpl in *. split; [lia|]. split; [lia|]. intros _. split; [by rewrite Hnc|done].
Qed.

(** A first lookup that runs [git status], and a second one three time
    units later, with a lifetime of five. *)
Lemma two_lookups_within_ttl_check_once_witness :
  (status_checks (elapse 3 Sample.w1) ≤ status_checks Sample.w0 + 1)%nat ∧
  (length (spawned (elapse 3 Sample.w1))
   ≤ length (spawned Sample.w0)
     + Nat.max (max_spawns (Git "git" "C:\proj")) (max_spawns (Git "git" "C:\proj")))%nat ∧
  (cache_hit Sample.st5 "C:\proj\a.txt" Sample.w0 = None →
   status_checks Sample.w1 = S (status_checks Sample.w0) ∧
   Ok (Some "M") = Ok (Some "M") ∧ elapse 3 Sample.w1 = elapse 3 Sample.w1 ∧
   spawned (elapse 3 Sample.w1) = spawned Sample.w1).
Proof.
  apply (two_lookups_within_ttl_check_once (Sample.git_os " M a.txt") (Sample.git_os "")
           Sample.st5 (Git "git" "C:\proj") (Git "git" "C:\proj") "C:\proj\a.txt"
           Sample.w0 Sample.w1 (elapse 3 Sample.w1) (Ok (Some "M")) (Ok (Some "M")) 3).
  - reflexivity.
  - simpl. lia.
  - reflexivity.
Defined.

(** An entry written by [fetch_status] is served until twice the lifetime
    has passed since it was written. *)
Lemma stored_entry_hit st path s shown wc d :
  cache_hit st path (elapse d (stored st path s shown wc))
  = if bool_decide (d < 2 * cache_length st)
    then Some {| time := clock wc + cache_length st; status := s |}
    else None.
Proof.
  unfold cache_hit. simpl. rewrite lookup_insert_eq. simpl.
  repeat case_bool_decide; (done || lia).
Qed.

(** C2 does not hold of the code, which tests the stored expiry against
    [now - cache_length]: the entry stored with expiry 10 (written at time 5,
    lifetime 5) is still served at time 12, without a parser call or a child
    process and without being overwritten, although a fresh check would
    answer ['']. *)
Theorem expired_entry_is_served :
  file_status_cache Sample.stale_world !! "C:\proj\a.txt"
  = Some {| time := 10; status := Some "M" |} ∧
  clock Sample.stale_world = 12 ∧ cache_length Sample.st5 = 5 ∧
  (check_status (Sample.git_os "") (Git "git" "C:\proj") "C:\proj\a.txt"
     Sample.stale_world).1 = Ok "" ∧
  process_status (Sample.git_os "") Sample.st5 (Git "git" "C:\proj") "C:\proj\a.txt"
    Sample.stale_world
  = (Ok (Some "M"), Sample.stale_world).
Proof. repeat split; by vm_compute. Qed.


(** ** Root discovery *)

Section FindRoot.

Context (os : OS) (Hwf : os_wf os) (name : string).

Local Abbreviation marker := (has_marker os name).
Local Abbreviation up := (ancestor os).

Lemma ancestor_dirname d i : up (dirname os d) i = up d (S i).
Proof. unfold ancestor. by rewrite Nat.iter_succ_r. Qed.

Lemma ancestor_fixed d i : dirname os d = d → up d i = d.
Proof.
  intros Hd. induction i as [|i IH]; [done|].
  unfold ancestor in *. simpl. by rewrite IH.
Qed.

Lemma loop_unfold find_first fuel root_dir last_dir cur_dir :
  Some cur_dir ≠ last_dir →
  find_root_loop os name find_first (S fuel) root_dir last_dir cur_dir
  = if bool_decide (root_dir ≠ None) && negb (marker cur_dir) then Ok root_dir
    else if marker cur_dir && find_first then Ok (Some cur_dir)
    else find_root_loop os name find_first fuel
           (if marker cur_dir then Some cur_dir else root_dir)
           (Some cur_dir) (dirname os cur_dir).
Proof. intros Hne. simpl. by rewrite bool_decide_eq_false_2. Qed.

Lemma loop_step_unmarked find_first fuel last cur :
  Some cur ≠ last → marker cur = false →
  find_root_loop os name find_first (S fuel) None last cur
  = find_root_loop os name find_first fuel None (Some cur) (dirname os cur).
Proof. intros Hne Hm. rewrite loop_unfold by done. by rewrite Hm. Qed.

Lemma loop_step_marked fuel root last cur :
  Some cur ≠ last → marker cur = true →
  find_root_loop os name false (S fuel) root last cur
  = find_root_loop os name false fuel (Some cur) (Some cur) (dirname os cur).
Proof.
  intros Hne Hm. rewrite loop_unfold by done. rewrite Hm.
  by rewrite andb_false_r.
Qed.

Lemma loop_step_break fuel find_first r last cur :
  Some cur ≠ last → marker cur = false →
  find_root_loop os name find_first (S fuel) (Some r) last cur = Ok (Some r).
Proof. intros Hne Hm. rewrite loop_unfold by done. by rewrite Hm. Qed.

Lemma loop_stop find_first fuel root_dir cur_dir :
  find_root_loop os name find_first fuel root_dir (Some cur_dir) cur_dir = Ok root_dir.
Proof. destruct fuel; simpl; by rewrite bool_decide_eq_true_2. Qed.

Lemma fuel_step cur fuel :
  (depth os cur < S fuel)%nat →
  dirname os cur ≠ cur → (depth os (dirname os cur) < fuel)%nat.
Proof. intros Hd Hne. specialize (Hwf cur Hne). lia. Qed.

(** No ancestor has the marker: the walk ends at the top with nothing. *)
Lemma loop_none find_first fuel cur last :
  (Some cur ≠ last → (depth os cur < fuel)%nat) →
  (∀ i, marker (up cur i) = false) →
  find_root_loop os name find_first fuel None last cur = Ok None.
Proof.
  revert cur last. induction fuel as [|fuel IH]; intros cur last Hfuel Hm.
  - destruct (decide (Some cur = last)) as [<-|Hne]; [apply loop_stop|].
    specialize (Hfuel Hne). lia.
  - destruct (decide (Some cur = last)) as [<-|Hne]; [apply loop_stop|].
    rewrite loop_step_unmarked by (done || apply (Hm 0%nat)).
    apply IH.
    + intros Hd. apply fuel_step; [auto|congruence].
    + intros i. rewrite ancestor_dirname. apply Hm.
Qed.

(** With [find_first], the walk stops at the innermost marker. *)
Lemma loop_first j : ∀ fuel cur last,
  Some cur ≠ last → (depth os cur < fuel)%nat →
  (∀ i, (i < j)%nat → marker (up cur i) = false) →
  marker (up cur j) = true →
  find_root_loop os name true fuel None last cur = Ok (Some (up cur j)).
Proof.
  induction j as [|j IH]; intros fuel cur last Hne Hfuel Hlow Hj.
  - destruct fuel as [|fuel]; [lia|]. rewrite loop_unfold by done.
    by rewrite (Hj : marker cur = true).
  - destruct fuel as [|fuel]; [lia|].
    pose proof (Hlow 0%nat ltac:(lia) : marker cur = false) as H0.
    rewrite loop_step_unmarked by done.
    assert (dirname os cur ≠ cur) as Hd.
    { intros Hfix. rewrite (ancestor_fixed _ _ Hfix) in Hj. congruence. }
    rewrite <- ancestor_dirname. apply IH.
    + congruence.
    + by apply fuel_step.
    + intros i Hi. rewrite ancestor_dirname. apply Hlow. lia.
    + by rewrite ancestor_dirname.
Qed.

(** Without [find_first], once a marker was seen the walk goes on while
    the levels have it and answers with the last one that had it. *)
Lemma loop_run n : ∀ fuel prev,
  (dirname os prev ≠ prev → (depth os (dirname os prev) < fuel)%nat) →
  (∀ i, (1 ≤ i ≤ n)%nat → marker (up prev i) = true) →
  marker (up prev (S n)) = false ∨ up prev (S n) = up prev n →
  find_root_loop os name false fuel (Some prev) (Some prev) (dirname os prev)
  = Ok (Some (up prev n)).
Proof.
  induction n as [|n IH]; intros fuel prev Hfuel Hm Hend.
  - destruct (decide (dirname os prev = prev)) as [Hfix|Hne].
    + rewrite Hfix. apply loop_stop.
    + specialize (Hfuel Hne). destruct fuel as [|fuel]; [lia|].
      destruct Hend as [Hend|Hend]; [|done].
      apply loop_step_break; [congruence|exact Hend].
  - destruct (decide (dirname os prev = prev)) as [Hfix|Hne].
    + rewrite Hfix at 1. rewrite loop_stop. by rewrite ancestor_fixed.
    + specialize (Hfuel Hne). destruct fuel as [|fuel]; [lia|].
      rewrite loop_step_marked by (congruence || apply (Hm 1%nat); lia).
      rewrite <- ancestor_dirname. apply IH.
      * by apply fuel_step.
      * intros i Hi. rewrite ancestor_dirname. apply Hm. lia.
      * by rewrite !ancestor_dirname.
Qed.

Lemma loop_outermost j : ∀ fuel cur last k,
  (j ≤ k)%nat → Some cur ≠ last → (depth os cur < fuel)%nat →
  (∀ i, (i < j)%nat → marker (up cur i) = false) →
  (∀ i, (j ≤ i ≤ k)%nat → marker (up cur i) = true) →
  marker (up cur (S k)) = false ∨ up cur (S k) = up cur k →
  find_root_loop os name false fuel None last cur = Ok (Some (up cur k)).
Proof.
  induction j as [|j IH]; intros fuel cur last k Hjk Hne Hfuel Hlow Hm Hend.
  - destruct fuel as [|fuel]; [lia|].
    rewrite loop_step_marked by (done || apply (Hm 0%nat); lia).
    apply loop_run; [|intros; apply Hm; lia|done].
    intros. by apply fuel_step.
  - destruct fuel as [|fuel]; [lia|].
    pose proof (Hlow 0%nat ltac:(lia) : marker cur = false) as H0.
    rewrite loop_step_unmarked by done.
    destruct k as [|k]; [lia|].
    assert (dirname os cur ≠ cur) as Hd.
    { intros Hfix. specialize (Hm (S j) ltac:(lia)).
      rewrite (ancestor_fixed _ _ Hfix) in Hm. congruence. }
    rewrite <- ancestor_dirname. apply IH.
    + lia.
    + congruence.
    + by apply fuel_step.
    + intros i Hi. rewrite ancestor_dirname. apply Hlow. lia.
    + intros i Hi. rewrite ancestor_dirname. apply Hm. lia.
    + by rewrite !ancestor_dirname.
Qed.

(** The walk ends within its bound. *)
Lemma loop_terminates find_first fuel : ∀ root cur last,
  (Some cur ≠ last → (depth os cur < fuel)%nat) →
  find_root_loop os name find_first fuel root last cur ≠ OutOfFuel.
Proof.
  induction fuel as [|fuel IH]; intros root cur last Hfuel.
  - destruct (decide (Some cur = last)) as [<-|Hne]; [by rewrite loop_stop|].
    specialize (Hfuel Hne). lia.
  - destruct (decide (Some cur = last)) as [<-|Hne]; [by rewrite loop_stop|].
    rewrite loop_unfold by done.
    destruct (bool_decide (root ≠ None) && negb (marker cur)); [done|].
    destruct (marker cur && find_first); [done|].
    apply IH. intros Hd. apply fuel_step; [auto|congruence].
Qed.

Lemma loop_keeps_root find_first fuel : ∀ r cur last x,
  find_root_loop os name find_first fuel (Some r) last cur = Ok x → x ≠ None.
Proof.
  induction fuel as [|fuel IH]; intros r cur last x.
  - destruct (decide (Some cur = last)) as [<-|Hne].
    + rewrite loop_stop. by intros [= <-].
    + simpl. by rewrite bool_decide_eq_false_2.
  - destruct (decide (Some cur = last)) as [<-|Hne].
    + rewrite loop_stop. by intros [= <-].
    + rewrite loop_unfold by done.
      destruct (marker cur); simpl.
      * destruct find_first; [by intros [= <-]|apply IH].
      * by intros [= <-].
Qed.

(** A walk that ends with nothing met no marker. *)
Lemma loop_none_inv find_first fuel : ∀ cur last,
  (last = Some cur → dirname os cur = cur ∧ marker cur = false) →
  find_root_loop os name find_first fuel None last cur = Ok None →
  ∀ i, marker (up cur i) = false.
Proof.
  induction fuel as [|fuel IH]; intros cur last Hlast Hloop i.
  - simpl in Hloop. case_bool_decide as Hc; [|done].
    destruct (Hlast (eq_sym Hc)) as [Hfix Hm]. by rewrite ancestor_fixed.
  - destruct (decide (Some cur = last)) as [Hc|Hne].
    { destruct (Hlast (eq_sym Hc)) as [Hfix Hm]. by rewrite ancestor_fixed. }
    rewrite loop_unfold in Hloop by done. simpl in Hloop.
    destruct (marker cur) eqn:Hm; simpl in Hloop.
    + destruct find_first; [done|]. by apply loop_keeps_root in Hloop.
    + destruct i as [|i]; [done|]. rewrite <- ancestor_dirname.
      apply (IH (dirname os cur) (Some cur)); [|done].
      intros [= Hfix]. rewrite <- Hfix. by split.
Qed.

Lemma find_root_not_found path find_first :
  (∀ i, marker (up (start_dir os path) i) = false) →
  find_root os name path find_first
  = Raise (RepositoryNotFoundError ("Unable to find " +:+ name +:+ " directory")).
Proof.
  intros Hm. unfold find_root. rewrite loop_none; [done| |done]. lia.
Qed.

Lemma loop_never_raises find_first fuel : ∀ root last cur e,
  find_root_loop os name find_first fuel root last cur ≠ Raise e.
Proof.
  induction fuel as [|fuel IH]; intros root last cur e; simpl.
  - by case_bool_decide.
  - case_bool_decide; [done|].
    destruct (_ && negb _); [done|]. destruct (_ && find_first); [done|]. apply IH.
Qed.

Lemma loop_some_inv find_first fuel : ∀ cur last r,
  find_root_loop os name find_first fuel None last cur = Ok (Some r) →
  ∃ i, marker (up cur i) = true.
Proof.
  induction fuel as [|fuel IH]; intros cur last r Hloop.
  - simpl in Hloop. by case_bool_decide.
  - destruct (decide (Some cur = last)) as [<-|Hne]; [by rewrite loop_stop in Hloop|].
    destruct (marker cur) eqn:Hm; [by exists 0%nat|].
    rewrite loop_step_unmarked in Hloop by done.
    destruct (IH _ _ _ Hloop) as [i Hi]. exists (S i). by rewrite <- ancestor_dirname.
Qed.

(** [find_root] returns exactly when some ancestor has the marker, and
    raises [RepositoryNotFoundError] otherwise. *)
Lemma find_root_cases path find_first :
  (under os name path ∧ ∃ r, find_root os name path find_first = Ok r) ∨
  (¬ under os name path ∧
   find_root os name path find_first
   = Raise (RepositoryNotFoundError ("Unable to find " +:+ name +:+ " directory"))).
Proof.
  unfold find_root, mbind, result_bind.
  pose proof (loop_terminates find_first (S (depth os (start_dir os path))) None
                (start_dir os path) None ltac:(lia)) as Hterm.
  destruct (find_root_loop _ _ _ _ _ _ _) as [[r|]|e|] eqn:Hloop; [| | |done].
  - left. split; [|eauto]. by apply loop_some_inv in Hloop.
  - right. split; [|done]. intros [i Hi].
    apply loop_none_inv with (i := i) in Hloop; [congruence|done].
  - by apply loop_never_raises in Hloop.
Qed.

End FindRoot.

(** The [dirname] of the sample filesystem gives a shorter path or the
    path itself. *)
Lemma splitdrive_app p : p = (Sample.splitdrive p).1 +:+ (Sample.splitdrive p).2.
Proof.
  destruct p as [|d [|c rest]]; try done. simpl. by case_bool_decide.
Qed.

Lemma head_part_prefix p : ∃ tail, p = Sample.head_part p +:+ tail.
Proof.
  induction p as [|c p [tail IH]]; [by exists ""|]. simpl.
  destruct (Sample.head_part p) as [|d h].
  - destruct (Sample.is_sep c); [exists p|exists (String c p)]; done.
  - exists tail. by rewrite app_cons, <- IH.
Qed.

Lemma length_app a b : String.length (a +:+ b) = (String.length a + String.length b)%nat.
Proof. induction a as [|c a IH]; [done|]. rewrite app_cons. simpl. by rewrite IH. Qed.

Lemma length_zero s : String.length s = 0%nat → s = "".
Proof. by destruct s. Qed.

Lemma sample_os_wf dirs present procs trees : os_wf (Sample.os dirs present procs trees).
Proof.
  intros p. simpl. unfold Sample.dirname_nt.
  pose proof (splitdrive_app p) as Hp.
  destruct (head_part_prefix (Sample.splitdrive p).2) as [tail Hrest].
  destruct (rstrip_decompose Sample.is_sep (Sample.head_part (Sample.splitdrive p).2))
    as (t2 & Hhead & _).
  remember (Sample.splitdrive p).1 as d eqn:Hd. clear Hd.
  remember (Sample.splitdrive p).2 as rest eqn:Hr. clear Hr.
  remember (Sample.head_part rest) as head eqn:Hh. clear Hh.
  remember (Py.rstrip Sample.is_sep head) as r eqn:Hrs. clear Hrs.
  subst p rest. intros Hne. rewrite !length_app.
  destruct r as [|c r].
  - destruct tail as [|c tail]; [by rewrite app_empty_r in Hne|]. simpl. lia.
  - subst head. rewrite !length_app.
    destruct tail as [|c' tail], t2 as [|c'' t2]; simpl; try lia.
    by rewrite !app_empty_r in Hne.
Qed.

(** C3: when the ancestors of the starting directory have the marker from
    level [j] up to level [k], and level [k+1] lacks it or is level [k]
    again (the top), [find_root] with [find_first=False] gives level [k], the
    outermost of the chain, where [find_first=True] gives level [j], the
    innermost; when no ancestor has the marker, [find_root] raises
    [RepositoryNotFoundError]. *)
Theorem find_root_outermost (os : OS) (name path : string) :
  os_wf os →
  (∀ j k,
     (j ≤ k)%nat →
     (∀ i, (i < j)%nat → has_marker os name (ancestor os (start_dir os path) i) = false) →
     (∀ i, (j ≤ i ≤ k)%nat →
           has_marker os name (ancestor os (start_dir os path) i) = true) →
     has_marker os name (ancestor os (start_dir os path) (S k)) = false ∨
     ancestor os (start_dir os path) (S k) = ancestor os (start_dir os path) k →
     find_root os name path false = Ok (ancestor os (start_dir os path) k) ∧
     find_root os name path true = Ok (ancestor os (start_dir os path) j)) ∧
  (∀ find_first,
     (∀ i, has_marker os name (ancestor os (start_dir os path) i) = false) →
     find_root os name path find_first
     = Raise (RepositoryNotFoundError ("Unable to find " +:+ name +:+ " directory"))).
Proof.
  intros Hwf. split.
  - intros j k Hjk Hlow Hm Hend. unfold find_root. split.
    + by rewrite (loop_outermost os Hwf name j _ _ None k) by (done || lia).
    + rewrite (loop_first os Hwf name j) by (done || lia || apply Hm; lia). done.
  - intros find_first Hm. by apply find_root_not_found.
Qed.

(** Three nested directories with [.svn]: the root is [C:\wc], not
    [C:\wc\a\b]. *)
Lemma find_root_outermost_witness :
  find_root Sample.nested_svn_os ".svn" "C:\wc\a\b\f.txt" false = Ok "C:\wc" ∧
  find_root Sample.nested_svn_os ".svn" "C:\wc\a\b\f.txt" true = Ok "C:\wc\a\b".
Proof.
  refine (proj1 (find_root_outermost Sample.nested_svn_os ".svn" "C:\wc\a\b\f.txt"
                   (sample_os_wf _ _ _ _)) 0%nat 2%nat _ _ _ _).
  - lia.
  - intros i Hi. lia.
  - intros [|[|[|i]]] Hi; [reflexivity..|lia].
  - left. reflexivity.
Defined.

(** ** The selector *)

(** C4, as the code has it: [get_vcs] tries SVN, then Git, then Mercurial;
    an attempt that finds no marker is passed over, an attempt that finds
    its marker but no configured binary path ends the selection with
    [NotFoundError], and otherwise the last attempt that succeeds is
    returned.  With only a [.git] marker above the path and
    [git_tortoiseproc_path] set, that is Git; with several markers and the
    paths of the backends found all set, Mercurial comes before Git and Git
    before SVN. *)
Theorem get_vcs_last_found_wins (os : OS) (st : Settings) (path : string) :
  os_wf os →
  (∀ b, under os ".git" path → ¬ under os ".hg" path →
        git_tortoiseproc_path st = Some b →
        (under os ".svn" path → svn_tortoiseproc_path st ≠ None) →
        ∃ r, find_root os ".git" path true = Ok r ∧
             get_vcs os st (Some path) = Ok (TortoiseGit b r)) ∧
  (∀ b, under os ".hg" path →
        hg_hgtk_path st = Some b →
        (under os ".svn" path → svn_tortoiseproc_path st ≠ None) →
        (under os ".git" path → git_tortoiseproc_path st ≠ None) →
        ∃ r, find_root os ".hg" path true = Ok r ∧
             get_vcs os st (Some path) = Ok (TortoiseHg b r)) ∧
  (∀ b, under os ".svn" path → ¬ under os ".git" path → ¬ under os ".hg" path →
        svn_tortoiseproc_path st = Some b →
        ∃ r, find_root os ".svn" path false = Ok r ∧
             get_vcs os st (Some path) = Ok (TortoiseSVN b r)) ∧
  (¬ under os ".svn" path → under os ".git" path →
   git_tortoiseproc_path st = None →
   ∃ msg, get_vcs os st (Some path) = Raise (NotFoundError msg)) ∧
  (¬ under os ".svn" path → ¬ under os ".git" path → ¬ under os ".hg" path →
   ∃ msg, get_vcs os st (Some path) = Raise (NotFoundError msg)).
Proof.
  intros Hwf. unfold get_vcs, TortoiseSVN_init, TortoiseGit_init, TortoiseHg_init.
  destruct (find_root_cases os Hwf ".svn" path false) as [[Hs [rs ->]]|[Hs ->]];
  destruct (find_root_cases os Hwf ".git" path true) as [[Hg [rg ->]]|[Hg ->]];
  destruct (find_root_cases os Hwf ".hg" path true) as [[Hh [rh ->]]|[Hh ->]];
  destruct (svn_tortoiseproc_path st) as [bs|];
  destruct (git_tortoiseproc_path st) as [bg|];
  destruct (hg_hgtk_path st) as [bh|];
  (split; [|split; [|split; [|split]]]);
  try (intros; exfalso; by auto);
  try (intros b; intros; simplify_eq; by eexists);
  try (intros; by eexists);
  intros b ? ? Hsvn Hgit; exfalso; first [by apply Hgit|by apply Hsvn].
Qed.

(** [.git] and [.hg] side by side, every binary path set: Mercurial. *)
Lemma get_vcs_last_found_wins_witness :
  ∃ r, find_root Sample.git_hg_os ".hg" "C:\proj\a.txt" true = Ok r ∧
       get_vcs Sample.git_hg_os
         (Sample.settings (Some "C:\svn\TortoiseProc.exe") (Some "C:\git\TortoiseProc.exe")
            (Some "C:\hg\thgw.exe") 5)
         (Some "C:\proj\a.txt")
       = Ok (TortoiseHg "C:\hg\thgw.exe" r).
Proof.
  refine (proj1 (proj2 (get_vcs_last_found_wins Sample.git_hg_os _ "C:\proj\a.txt"
                          (sample_os_wf _ _ _ _))) "C:\hg\thgw.exe" _ _ _ _).
  - exists 0%nat. reflexivity.
  - reflexivity.
  - intros _. discriminate.
  - intros _. discriminate.
Defined.

(** C4 fails as stated: under a directory with a [.git] marker only, and
    no [git_tortoiseproc_path] in the settings, [get_vcs] raises
    [NotFoundError] and returns no backend. *)
Lemma only_git_without_binary_path :
  find_root Sample.only_git_os ".svn" "C:\proj\a.txt" false
  = Raise (RepositoryNotFoundError "Unable to find .svn directory") ∧
  find_root Sample.only_git_os ".git" "C:\proj\a.txt" true = Ok "C:\proj" ∧
  find_root Sample.only_git_os ".hg" "C:\proj\a.txt" true
  = Raise (RepositoryNotFoundError "Unable to find .hg directory") ∧
  get_vcs Sample.only_git_os Sample.st5 (Some "C:\proj\a.txt")
  = Raise (set_binary_path Sample.only_git_os "TortoiseGit"
             "TortoiseGit\bin\TortoiseProc.exe" "TortoiseProc.exe"
             "git_tortoiseproc_path") ∧
  ∀ b r, get_vcs Sample.only_git_os Sample.st5 (Some "C:\proj\a.txt")
         ≠ Ok (TortoiseGit b r).
Proof. repeat split; try by vm_compute. Qed.


(** ** [search_file] *)

Section SearchFile.

Context (os : OS).

Lemma elem_of_ffilter names name :
  name ∈ ffilter os names "git.exe"
  ↔ normcase os name = normcase os "git.exe" ∧ name ∈ names.
Proof. unfold ffilter. by rewrite list_elem_of_filter. Qed.

Lemma search_file_walked filename dirs :
  search_file os filename dirs = search_walk os (walked os dirs) None.
Proof.
  unfold search_file, walked. generalize (@None string).
  induction dirs as [|p dirs IH]; intros m; [done|]. simpl.
  rewrite IH. rewrite filter_cons. destruct (isdir os p) eqn:Hd.
  - rewrite decide_True by done. simpl. unfold search_walk. by rewrite foldl_app.
  - by rewrite decide_False by done.
Qed.

Lemma search_walk_no_match l m :
  (∀ r d f, (r, d, f) ∈ l → ffilter os f "git.exe" = []) →
  search_walk os l m = m.
Proof.
  revert m. induction l as [|[[r d] f] l IH]; intros m Hl; [done|].
  unfold search_walk in *. simpl. rewrite (Hl r d f) by (by left). simpl.
  apply IH. intros. eapply Hl. by right.
Qed.

Lemma search_walk_last pre root dirnames filenames post name rest m :
  ffilter os filenames "git.exe" = name :: rest →
  join os root name ≠ "" →
  (∀ r d f, (r, d, f) ∈ post → ffilter os f "git.exe" = []) →
  search_walk os (pre ++ (root, dirnames, filenames) :: post) m
  = Some (join os root name).
Proof.
  intros Hf Hj Hpost. unfold search_walk. rewrite foldl_app. simpl.
  rewrite Hf. simpl. rewrite bool_decide_eq_true_2 by done.
  by apply search_walk_no_match.
Qed.

End SearchFile.

(** C10: [search_file] never looks at [filename].  It keeps the files whose
    name matches the pattern [git.exe], answers with the path joined from
    the last walked directory that has one (and its first such file), and
    answers [None] when no walked directory has one, in particular when no
    argument is a directory. *)
Theorem search_file_last_git_exe (os : OS) (filename : string) (dirs : list string) :
  (∀ other, search_file os other dirs = search_file os filename dirs) ∧
  (∀ names name,
     name ∈ ffilter os names "git.exe"
     ↔ normcase os name = normcase os "git.exe" ∧ name ∈ names) ∧
  (∀ pre root dirnames filenames post name rest,
     walked os dirs = pre ++ (root, dirnames, filenames) :: post →
     ffilter os filenames "git.exe" = name :: rest →
     join os root name ≠ "" →
     (∀ r d f, (r, d, f) ∈ post → ffilter os f "git.exe" = []) →
     search_file os filename dirs = Some (join os root name)) ∧
  ((∀ r d f, (r, d, f) ∈ walked os dirs → ffilter os f "git.exe" = []) →
   search_file os filename dirs = None) ∧
  ((∀ p, p ∈ dirs → isdir os p = false) → search_file os filename dirs = None).
Proof.
  split; [done|]. split; [apply elem_of_ffilter|]. split; [|split].
  - intros pre root dirnames filenames post name rest Hw Hf Hj Hpost.
    rewrite search_file_walked, Hw. by eapply search_walk_last.
  - intros Hno. rewrite search_file_walked. by apply search_walk_no_match.
  - intros Hno. rewrite search_file_walked.
    assert (walked os dirs = []) as ->; [|done].
    unfold walked. induction dirs as [|p dirs' IH]; [done|].
    rewrite filter_cons, decide_False.
    + apply IH. intros. apply Hno. by right.
    + rewrite (Hno p) by (by left). done.
Qed.

(** Asked for [svn.exe], the search answers with the second of the two
    [git.exe] of the sample. *)
Lemma search_file_last_git_exe_witness :
  search_file Sample.search_os "svn.exe" ["C:\Program Files (x86)"]
  = Some "C:\Program Files (x86)\Git\cmd\git.exe".
Proof.
  refine (proj1 (proj2 (proj2 (search_file_last_git_exe Sample.search_os "svn.exe"
                                 ["C:\Program Files (x86)"])))
            [("C:\Program Files (x86)", ["Git"], []);
             ("C:\Program Files (x86)\Git", ["bin"; "cmd"], ["LICENSE.txt"]);
             ("C:\Program Files (x86)\Git\bin", [], ["git.exe"; "sh.exe"])]
            "C:\Program Files (x86)\Git\cmd" [] ["git.exe"] [] "git.exe" [] _ _ _ _).
  - reflexivity.
  - reflexivity.
  - discriminate.
  - intros r d f Hin. by apply elem_of_nil in Hin.
Defined.

(** * Further properties of the code *)

(** ** The process runner *)

Section Trimming.

Import Py.


Lemma all_chars_app P a b : all_chars P (a +:+ b) = all_chars P a && all_chars P b.
Proof.
  induction a as [|c a IH]; [done|]. rewrite app_cons. simpl.
  by rewrite IH, andb_assoc.
Qed.

Lemma all_chars_impl (P Q : ascii → bool) s :
  (∀ c, P c = true → Q c = true) → all_chars P s = true → all_chars Q s = true.
Proof.
  intros HPQ. induction s as [|c s IH]; [done|]. simpl.
  intros [Hc Hs]%andb_true_iff. by rewrite (HPQ c Hc), IH.
Qed.

Lemma rstrip_empty P s : rstrip P s = "" ↔ all_chars P s = true.
Proof.
  induction s as [|c s IH]; [done|]. simpl.
  destruct (rstrip P s) as [|d r] eqn:Hr.
  - destruct IH as [IH _]. rewrite (IH eq_refl), andb_true_r.
    destruct (P c); [done|]. split; [done|discriminate].
  - split; [done|]. intros [_ Hs]%andb_true_iff. by apply IH in Hs.
Qed.

Lemma lstrip_empty P s : lstrip P s = "" ↔ all_chars P s = true.
Proof.
  induction s as [|c s IH]; [done|]. simpl. destruct (P c); [done|].
  split; [done|discriminate].
Qed.

Lemma strip_empty s : strip s = "" ↔ all_chars isspace s = true.
Proof.
  unfold strip. rewrite lstrip_empty.
  destruct (rstrip_decompose isspace s) as (tail & Hs & Ht).
  remember (rstrip isspace s) as r eqn:Hr. clear Hr.
  by rewrite Hs, all_chars_app, Ht, andb_true_r.
Qed.

Lemma rstrip_chars_isspace c : rstrip_chars c = true → isspace c = true.
Proof.
  unfold rstrip_chars. rewrite !orb_true_iff, !bool_decide_eq_true.
  by intros [[->| ->]| ->].
Qed.

Lemma replace_crlf_isspace s :
  all_chars isspace (replace_crlf s) = all_chars isspace s.
Proof.
  assert (∀ n s, (String.length s ≤ n)%nat →
            all_chars isspace (replace_crlf s) = all_chars isspace s) as H.
  { clear s. induction n as [|n IH]; intros [|c [|d s]] Hn; simpl in *; try done; try lia.
    destruct (bool_decide (c = cr) && bool_decide (d = nl)) eqn:Hcd.
    - apply andb_true_iff in Hcd as [->%bool_decide_eq_true ->%bool_decide_eq_true].
      simpl. apply IH. lia.
    - change (all_chars isspace (String c (replace_crlf (String d s)))
              = isspace c && all_chars isspace (String d s)).
      simpl. f_equal. apply (IH (String d s)). simpl. lia. }
  by apply (H (String.length s)).
Qed.

(** A whole output is blank exactly when the text [run] makes of it,
    stripped, is empty. *)
Lemma blank_output readout :
  strip (normalize readout) = "" ↔ all_chars isspace readout = true.
Proof.
  rewrite strip_empty. unfold normalize.
  destruct (rstrip_decompose rstrip_chars (replace_crlf readout)) as (tail & Hs & Ht).
  rewrite <- (replace_crlf_isspace readout).
  remember (rstrip rstrip_chars (replace_crlf readout)) as r eqn:Hr. clear Hr.
  rewrite Hs, all_chars_app.
  by rewrite (all_chars_impl _ _ _ rstrip_chars_isspace Ht), andb_true_r.
Qed.

Lemma split_single_empty sep s : split sep s = [""] ↔ s = "".
Proof.
  split; [|by intros ->]. destruct s as [|c s]; [done|]. simpl.
  case_bool_decide; [|done].
  intros [= Hs]. by apply split_nonempty in Hs.
Qed.

End Trimming.



(** ** The parsers, whatever the child processes answer *)

Section ParserFacts.

Context (os : OS).







(** The outcome of the Git and Mercurial parsers in terms of the one child
    process they run. *)
Lemma git_hg_check_status vcs path w :
  (∀ root svn_paths, vcs ≠ SVN root svn_paths) →
  check_status os vcs path w
  = match popen os (vcs_command os vcs path).1 (vcs_command os vcs path).2 with
    | inl e => (Raise e, w)
    | inr readout =>
        (Ok (if isdir os path
             then if bool_decide (Py.strip (normalize readout) = "") then "?" else ""
             else match vcs with
                  | Git _ root => git_scan root path
                                    (Py.split Py.nl (Py.strip (normalize readout)))
                  | _ => hg_scan (lines_of readout)
                  end),
         spawn_world os (vcs_command os vcs path).1 (vcs_command os vcs path).2 w)
    end.
Proof.
  intros Hvcs. destruct vcs as [root svn_paths|git_path root|hg_path root];
    [by destruct (Hvcs root svn_paths)|..];
    unfold check_status, vcs_command; unfold_M; unfold NonInteractiveProcess_run;
    destruct (isdir os path); simpl;
    match goal with |- context [popen os ?a ?c] => destruct (popen os a c) end;
    try done.
  - destruct (decide (Py.strip (normalize s) = "")) as [Hs|Hs].
    + rewrite Hs. done.
    + rewrite (bool_decide_eq_false_2 (Py.strip _ = "")) by done.
      rewrite bool_decide_eq_false_2; [done|]. by rewrite split_single_empty.
  - destruct (decide (Py.strip (normalize s) = "")) as [Hs|Hs].
    + rewrite Hs. done.
    + rewrite (bool_decide_eq_false_2 (Py.strip _ = "")) by done.
      rewrite bool_decide_eq_false_2; [done|]. by rewrite split_single_empty.
Qed.

(** The candidate loop starts a prefix of the candidates, each of which
    answered; it returns a result only after one of them did. *)
Lemma svn_candidates_spawns root path svn_paths : ∀ res w,
  ∃ k, (k ≤ length svn_paths)%nat ∧
       (svn_candidates os root path svn_paths res w).2
       = svn_spawns os root path (take k svn_paths) w ∧
       (∀ p, p ∈ take k svn_paths →
             ∃ readout, popen os (svn_args path p) root = inr readout) ∧
       (∀ r, (svn_candidates os root path svn_paths res w).1 = Ok (Some r) →
             res = None → (1 ≤ k)%nat).
Proof.
  induction svn_paths as [|p rest IH]; intros res w.
  - exists 0%nat. simpl. repeat split; [lia| |].
    + intros p Hp. by apply elem_of_nil in Hp.
    + unfold_M. by intros r [= ->].
  - simpl svn_candidates. unfold check_svn_vs_path. unfold_M.
    fold (svn_args path p). unfold NonInteractiveProcess_run.
    destruct (popen os (svn_args path p) root) as [e|readout] eqn:Hp.
    { exists 0%nat. simpl. repeat split; [lia| |done].
      intros q Hq. by apply elem_of_nil in Hq. }
    assert (∀ q, q ∈ take 1 (p :: rest) →
                 ∃ readout, popen os (svn_args path q) root = inr readout) as Hone.
    { simpl. intros q ->%list_elem_of_singleton. eauto. }
    destruct (Py.split Py.nl (normalize readout)) as [|first more];
      [exists 1%nat; simpl; repeat split; (lia || done)|].
    destruct (Py.startswith first "svn: E");
      [|exists 1%nat; simpl; repeat split; (lia || done)].
    destruct (error_code first) as [code|];
      [|exists 1%nat; simpl; repeat split; (lia || done)].
    unfold check_errors. case_bool_decide;
      [exists 1%nat; simpl; repeat split; (lia || done)|].
    destruct (IH (Some (first :: more)) (spawn_world os (svn_args path p) root w))
      as (k & Hk & Hw & Hall & _).
    exists (S k). simpl. repeat split; [lia|by rewrite Hw| |lia].
    intros q [->|Hq]%elem_of_cons; [eauto|by apply Hall].
Qed.

Lemma svn_check_status_spawns root path svn_paths w :
  ∃ k, (k ≤ length svn_paths)%nat ∧
       (check_status os (SVN root svn_paths) path w).2
       = svn_spawns os root path (take k svn_paths) w ∧
       (∀ p, p ∈ take k svn_paths →
             ∃ readout, popen os (svn_args path p) root = inr readout) ∧
       (∀ s, (check_status os (SVN root svn_paths) path w).1 = Ok s → (1 ≤ k)%nat).
Proof.
  destruct (svn_candidates_spawns root path svn_paths None w)
    as (k & Hk & Hw & Hall & H1).
  exists k. split; [done|]. unfold check_status. unfold_M.
  destruct (svn_candidates os root path svn_paths None w) as [[[r|]|e|] w1];
    simpl in *; (split; [done|split; [done|]]); intros s [=]. by apply (H1 r).
Qed.

(** What the candidate loop returns does not depend on the state. *)
Lemma svn_candidates_result root path svn_paths : ∀ res w w',
  (svn_candidates os root path svn_paths res w).1
  = (svn_candidates os root path svn_paths res w').1.
Proof.
  induction svn_paths as [|p rest IH]; intros res w w'; [done|].
  simpl. unfold check_svn_vs_path. unfold_M. unfold NonInteractiveProcess_run.
  destruct (popen os [p; "status"; path] root) as [e|readout]; [done|].
  destruct (Py.split Py.nl (normalize readout)) as [|first more]; [done|].
  destruct (Py.startswith first "svn: E"); [|done].
  destruct (error_code first) as [code|]; [|done].
  unfold check_errors. case_bool_decide; [done|]. apply IH.
Qed.

Lemma check_status_result vcs path w w' :
  (check_status os vcs path w).1 = (check_status os vcs path w').1.
Proof.
  destruct vcs as [root svn_paths|git_path root|hg_path root].
  - unfold check_status. unfold_M.
    pose proof (svn_candidates_result root path svn_paths None w w') as H.
    destruct (svn_candidates os root path svn_paths None w) as [r1 w1].
    destruct (svn_candidates os root path svn_paths None w') as [r2 w2].
    simpl in H. subst r2. by destruct r1 as [[?|]|?|].
  - rewrite !git_hg_check_status by done. by destruct (popen os _ _).
  - rewrite !git_hg_check_status by done. by destruct (popen os _ _).
Qed.

End ParserFacts.



(** X3: [SVN.check_status] starts a prefix of its candidates, in their
    order, every one of which could be started, and returns a status only
    after at least one was.  The Git and Mercurial parsers start one process
    in the root directory, [log] for a directory and [status] for a file, or
    raise what the failed start raised, with no process started. *)
Theorem parsers_spawn_in_order (os : OS) (vcs : Vcs) (path : string) (w : World) :
  match vcs with
  | SVN root svn_paths =>
      ∃ k, (k ≤ length svn_paths)%nat ∧
           spawned (check_status os vcs path w).2
           = rev (map (fun q => (svn_args path q, root)) (take k svn_paths))
               ++ spawned w ∧
           (∀ q, q ∈ take k svn_paths →
                 ∃ readout, popen os (svn_args path q) root = inr readout) ∧
           (∀ s, (check_status os vcs path w).1 = Ok s → (1 ≤ k)%nat)
  | _ =>
      match popen os (vcs_command os vcs path).1 (vcs_command os vcs path).2 with
      | inr _ =>
          spawned (check_status os vcs path w).2 = vcs_command os vcs path :: spawned w
      | inl e => check_status os vcs path w = (Raise e, w)
      end
  end.
Proof.
  destruct vcs as [root svn_paths|git_path root|hg_path root].
  - destruct (svn_check_status_spawns os root path svn_paths w)
      as (k & Hk & Hw & Hall & H1).
    exists k. by rewrite <- (svn_spawns_spawned os), <- Hw.
  - rewrite git_hg_check_status by done. by destruct (popen os _ _).
  - rewrite git_hg_check_status by done. by destruct (popen os _ _).
Qed.

(** X4: a candidate that cannot be started ends [SVN.check_status] with the
    exception of the failed start; the candidates after it are not tried. *)
Theorem svn_failed_start_is_not_retried
    (os : OS) (root path : string) (pre : list string) (p : string)
    (post : list string) (w : World) (e : exn) :
  (∀ q, q ∈ pre → ∃ code, svn_reports os root path q code ∧ code ≠ "E155021") →
  popen os (svn_args path p) root = inl e →
  check_status os (SVN root (pre ++ p :: post)) path w
  = (Raise e, svn_spawns os root path pre w).
Proof.
  intros Hpre Hp. unfold check_status. unfold_M.
  destruct (svn_candidates_skip os root path pre (p :: post) None w Hpre) as [res ->].
  simpl. unfold check_svn_vs_path. unfold_M. unfold NonInteractiveProcess_run.
  fold (svn_args path p). by rewrite Hp.
Qed.

(** The configured client is missing; the one on the search path, which
    would answer, is not asked. *)
Lemma svn_failed_start_is_not_retried_witness :
  check_status Sample.svn_os (SVN "C:\wc" ([] ++ "C:\missing\svn.exe" :: ["svn"]))
    "C:\wc\foo.txt" Sample.w0
  = (Raise (OSError "[WinError 2] The system cannot find the file specified"),
     svn_spawns Sample.svn_os "C:\wc" "C:\wc\foo.txt" [] Sample.w0).
Proof.
  apply (svn_failed_start_is_not_retried Sample.svn_os "C:\wc" "C:\wc\foo.txt" []
           "C:\missing\svn.exe" ["svn"] Sample.w0).
  - intros q Hq. by apply elem_of_nil in Hq.
  - reflexivity.
Defined.

(** X5: when every candidate reports an [svn: E] error other than
    [E155021], the error output of the last one is parsed like a listing; a
    query for the root itself then has the status [s], the first character
    of [svn: E...]. *)
Theorem svn_error_output_read_as_status
    (os : OS) (root : string) (pre : list string) (p code : string) (w : World) :
  (∀ q, q ∈ pre → ∃ code, svn_reports os root root q code ∧ code ≠ "E155021") →
  svn_reports os root root p code → code ≠ "E155021" →
  check_status os (SVN root (pre ++ [p])) root w
  = (Ok "s", svn_spawns os root root (pre ++ [p]) w).
Proof.
  intros Hpre (readout & Hp & Hs & Hc) Hne.
  rewrite (svn_check_status_last_error os _ _ _ _ _ _ _ Hpre Hp Hs Hc Hne).
  f_equal. f_equal. rewrite lines_of_nonempty.
  apply startswith_spec in Hs as [rest ->]. rewrite !app_cons. simpl.
  unfold skips_line. by rewrite bool_decide_eq_false_2 by (by intros []).
Qed.

(** The first client finds the working copy locked, the second does not
    know it. *)
Lemma svn_error_output_read_as_status_witness :
  check_status Demo.root_os (SVN "C:\wc" (["C:\tools\svn.exe"] ++ ["svn"])) "C:\wc"
    Sample.w0
  = (Ok "s", svn_spawns Demo.root_os "C:\wc" "C:\wc" (["C:\tools\svn.exe"] ++ ["svn"])
               Sample.w0).
Proof.
  apply (svn_error_output_read_as_status Demo.root_os "C:\wc" ["C:\tools\svn.exe"]
           "svn" "E155007" Sample.w0).
  - intros q ->%list_elem_of_singleton. exists "E155004". split; [|done].
    eexists. split; [reflexivity|]. split; reflexivity.
  - eexists. split; [reflexivity|]. split; reflexivity.
  - done.
Defined.

(** X6: a query for the root itself matches every line: when the output
    parsed starts with no [svn: E] line, [SVN.check_status] answers with the
    first character of its first non-empty line, whatever file that line
    names. *)
Theorem svn_root_query_takes_first_line
    (os : OS) (root : string) (pre : list string) (p : string) (post : list string)
    (w : World) (readout : string) (blank : list string) (c : ascii) (tl : string)
    (rest : list string) :
  (∀ q, q ∈ pre → ∃ code, svn_reports os root root q code ∧ code ≠ "E155021") →
  popen os (svn_args root p) root = inr readout →
  Py.startswith (first_line readout) "svn: E" = false →
  lines_of readout = blank ++ String c tl :: rest →
  (∀ l, l ∈ blank → l = "") →
  (check_status os (SVN root (pre ++ p :: post)) root w).1 = Ok (Py.chr c).
Proof.
  intros Hpre Hp Hs Hl Hblank.
  rewrite (svn_check_status_accept os _ _ _ _ _ _ _ Hpre Hp Hs). simpl. f_equal.
  rewrite Hl, svn_scan_skip by (intros l Hin; left; by apply Hblank).
  simpl. unfold skips_line. by rewrite bool_decide_eq_false_2 by (by intros []).
Qed.

(** The listing of the whole working copy, after an empty line. *)
Lemma svn_root_query_takes_first_line_witness :
  (check_status Demo.root_os (SVN "C:\wc" ([] ++ "C:\new\svn.exe" :: [])) "C:\wc"
     Sample.w0).1 = Ok (Py.chr "M").
Proof.
  apply (svn_root_query_takes_first_line Demo.root_os "C:\wc" [] "C:\new\svn.exe" []
           Sample.w0 (NL +:+ "M       a.txt" +:+ NL +:+ "A       b.txt")
           [""] "M" "       a.txt" ["A       b.txt"]).
  - intros q Hq. by apply elem_of_nil in Hq.
  - reflexivity.
  - reflexivity.
  - reflexivity.
  - by intros l ->%list_elem_of_singleton.
Defined.

(** X7: for a directory, the Git and Mercurial parsers answer [?] exactly
    when [log] printed white space only, and [''] otherwise. *)
Theorem directory_status_from_log
    (os : OS) (vcs : Vcs) (path : string) (w : World) (readout : string) :
  (∀ root svn_paths, vcs ≠ SVN root svn_paths) →
  isdir os path = true →
  popen os (vcs_command os vcs path).1 (vcs_command os vcs path).2 = inr readout →
  (check_status os vcs path w).1
  = Ok (if all_chars Py.isspace readout then "?" else "").
Proof.
  intros Hvcs Hd Hp. rewrite git_hg_check_status by done. rewrite Hp, Hd. simpl.
  f_equal. destruct (all_chars Py.isspace readout) eqn:Ha.
  - apply blank_output in Ha. by rewrite bool_decide_eq_true_2.
  - rewrite bool_decide_eq_false_2; [done|]. rewrite blank_output. congruence.
Qed.

(** [git log -1] printing a blank and a line end. *)
Lemma directory_status_from_log_witness :
  (check_status Demo.root_os (Git "git" "C:\wc") "C:\wc" Sample.w0).1
  = Ok (if all_chars Py.isspace (" " +:+ Demo.CR +:+ NL) then "?" else "").
Proof.
  apply (directory_status_from_log Demo.root_os (Git "git" "C:\wc") "C:\wc" Sample.w0
           (" " +:+ Demo.CR +:+ NL)); [done|reflexivity..].
Defined.

(** X8: no parser writes the status cache, shows a dialog or counts a
    status check, and each of them returns or raises. *)
Theorem parsers_leave_the_cache_alone (os : OS) (vcs : Vcs) (path : string) (w : World) :
  file_status_cache (check_status os vcs path w).2 = file_status_cache w ∧
  dialogs (check_status os vcs path w).2 = dialogs w ∧
  status_checks (check_status os vcs path w).2 = status_checks w ∧
  (check_status os vcs path w).1 ≠ OutOfFuel.
Proof.
  destruct (check_status_frame os vcs path w) as [(? & ? & ?) ?]. done.
Qed.

(** ** The cache, for any lookup *)

Section Lookups.

Context (os : OS) (st : Settings).

(** The two ways a lookup can go. *)
Lemma process_status_cases vcs path w :
  (∃ e, cache_hit st path w = Some e ∧
        file_status_cache w !! path = Some e ∧
        process_status os st vcs path w = (Ok (status e), w)) ∨
  (cache_hit st path w = None ∧
   ∃ s shown wc,
     process_status os st vcs path w = (Ok s, stored st path s shown wc) ∧
     same_plugin_state w wc ∧ wc = (check_status os vcs path w).2 ∧
     (shown = [] ∧ (check_status os vcs path w).1 = Ok (default "" s) ∧ is_Some s ∨
      s = None ∧ ∃ e, shown = [exn_str e] ∧ (check_status os vcs path w).1 = Raise e)).
Proof.
  destruct (cache_hit st path w) as [e|] eqn:Hc.
  - left. exists e. split; [done|]. split; [|by apply process_status_hit].
    unfold cache_hit in Hc. destruct (file_status_cache w !! path) as [e'|]; [|done].
    by case_bool_decide; simplify_eq.
  - right. split; [done|]. rewrite (process_status_miss _ _ _ _ _ Hc).
    pose proof (check_status_frame os vcs path w) as [Hf Hne].
    destruct (check_status os vcs path w) as [[s|e|] wc] eqn:Hcs; [| |done].
    + exists (Some s), [], wc. rewrite (fetch_status_ok _ _ _ _ _ _ _ Hcs).
      repeat split; try apply Hf. left. by eauto.
    + exists None, [exn_str e], wc. rewrite (fetch_status_raise _ _ _ _ _ _ _ Hcs).
      repeat split; try apply Hf. right. by eauto.
Qed.

End Lookups.

(** X9: a lookup never raises, whatever the parser does; it makes at most
    one parser call and shows at most one dialog, and it shows none when it
    returns a status. *)
Theorem lookup_never_raises
    (os : OS) (st : Settings) (vcs : Vcs) (path : string) (w : World) :
  ∃ r w',
    process_status os st vcs path w = (Ok r, w') ∧
    (status_checks w' ≤ S (status_checks w))%nat ∧
    (dialogs w' = dialogs w ∨ r = None ∧ ∃ m, dialogs w' = m :: dialogs w).
Proof.
  destruct (process_status_cases os st vcs path w)
    as [(e & _ & _ & ->)|(_ & s & shown & wc & -> & (_ & Hd & Hn) & _ & Hs)].
  - exists (status e), w. repeat split; [lia|by left].
  - exists s, (stored st path s shown wc). simpl. rewrite Hd, Hn. repeat split; [lia|].
    destruct Hs as [(-> & _)|(-> & e & -> & _)]; [by left|right]. by eauto.
Qed.

(** X10: after a lookup the cache has an entry for the path, and its
    status is the value the lookup returned. *)
Theorem lookup_leaves_entry
    (os : OS) (st : Settings) (vcs : Vcs) (path : string) (w : World) :
  ∃ e, file_status_cache (process_status os st vcs path w).2 !! path = Some e ∧
       (process_status os st vcs path w).1 = Ok (status e).
Proof.
  destruct (process_status_cases os st vcs path w)
    as [(e & _ & He & ->)|(_ & s & shown & wc & -> & _)].
  - by exists e.
  - eexists. simpl. by rewrite lookup_insert_eq.
Qed.

(** X11: a lookup changes no entry of another path and removes none. *)
Theorem lookup_keeps_other_entries
    (os : OS) (st : Settings) (vcs : Vcs) (path other : string) (w : World) :
  (other ≠ path →
   file_status_cache (process_status os st vcs path w).2 !! other
   = file_status_cache w !! other) ∧
  (is_Some (file_status_cache w !! other) →
   is_Some (file_status_cache (process_status os st vcs path w).2 !! other)).
Proof.
  destruct (process_status_cases os st vcs path w)
    as [(e & _ & He & ->)|(_ & s & shown & wc & -> & (Hc & _) & _)]; [done|].
  simpl. rewrite Hc. split.
  - intros Hne. by rewrite lookup_insert_ne.
  - intros Hs. destruct (decide (path = other)) as [->|Hne].
    + by rewrite lookup_insert_eq.
    + by rewrite lookup_insert_ne.
Qed.

(** X12: the entry a lookup stored is served for twice [cache_length]: a
    lookup [d] later returns the stored status and leaves the state alone
    when [d < 2 * cache_length], and goes to the parser otherwise. *)
Theorem stored_entry_served_for_twice_the_ttl
    (os os' : OS) (st : Settings) (vcs vcs' : Vcs) (path : string) (w : World) (d : Z) :
  cache_hit st path w = None →
  process_status os' st vcs' path (elapse d (process_status os st vcs path w).2)
  = if bool_decide (d < 2 * cache_length st)
    then ((process_status os st vcs path w).1,
          elapse d (process_status os st vcs path w).2)
    else fetch_status os' st vcs' path (elapse d (process_status os st vcs path w).2).
Proof.
  intros Hmiss.
  destruct (process_status_cases os st vcs path w)
    as [(e & He & _)|(_ & s & shown & wc & -> & _)]; [congruence|].
  simpl. pose proof (stored_entry_hit st path s shown wc d) as Hhit.
  case_bool_decide.
  - by rewrite (process_status_hit _ _ _ _ _ _ Hhit).
  - by rewrite (process_status_miss _ _ _ _ _ Hhit).
Qed.

(** A lifetime of five: the status stored at time 1 is still served at
    time 10. *)
Lemma stored_entry_served_for_twice_the_ttl_witness :
  process_status (Sample.git_os "") Sample.st5 (Git "git" "C:\proj") "C:\proj\a.txt"
    (elapse 9 (process_status (Sample.git_os " M a.txt") Sample.st5 (Git "git" "C:\proj")
                 "C:\proj\a.txt" Sample.w0).2)
  = if bool_decide (9 < 2 * cache_length Sample.st5)
    then ((process_status (Sample.git_os " M a.txt") Sample.st5 (Git "git" "C:\proj")
             "C:\proj\a.txt" Sample.w0).1,
          elapse 9 (process_status (Sample.git_os " M a.txt") Sample.st5
                      (Git "git" "C:\proj") "C:\proj\a.txt" Sample.w0).2)
    else fetch_status (Sample.git_os "") Sample.st5 (Git "git" "C:\proj") "C:\proj\a.txt"
           (elapse 9 (process_status (Sample.git_os " M a.txt") Sample.st5
                        (Git "git" "C:\proj") "C:\proj\a.txt" Sample.w0).2).
Proof.
  apply (stored_entry_served_for_twice_the_ttl (Sample.git_os " M a.txt")
           (Sample.git_os "") Sample.st5 (Git "git" "C:\proj") (Git "git" "C:\proj")
           "C:\proj\a.txt" Sample.w0 9).
  reflexivity.
Defined.

Lemma process_status_repeated
    (os os' : OS) (st : Settings) (vcs vcs' : Vcs) (path : string) (w : World) :
  0 < cache_length st →
  process_status os' st vcs' path (process_status os st vcs path w).2
  = process_status os st vcs path w.
Proof.
  intros Httl.
  destruct (process_status_cases os st vcs path w)
    as [(e & He & _ & Hp)|(_ & s & shown & wc & Hp & _)]; rewrite Hp; simpl.
  - by rewrite (process_status_hit _ _ _ _ _ _ He).
  - apply (process_status_hit os' st vcs' path (stored st path s shown wc)
             {| time := clock wc + cache_length st; status := s |}).
    unfold cache_hit. simpl. rewrite lookup_insert_eq. simpl.
    rewrite bool_decide_eq_true_2; [done|lia].
Qed.

(** X13: with a positive [cache_length], a lookup that follows another
    for the same path at once returns the same status and leaves the state
    as the first one left it, even where the parser would now answer
    differently. *)
Theorem lookup_repeated_at_once
    (os os' : OS) (st : Settings) (vcs vcs' : Vcs) (path : string) (w : World) :
  0 < cache_length st →
  process_status os' st vcs' path (process_status os st vcs path w).2
  = process_status os st vcs path w ∧
  status_checks (process_status os' st vcs' path (process_status os st vcs path w).2).2
  = status_checks (process_status os st vcs path w).2 ∧
  ∃ e, cache_hit st path (process_status os st vcs path w).2 = Some e ∧
       (process_status os st vcs path w).1 = Ok (status e).
Proof.
  intros Httl.
  destruct (process_status_cases os st vcs path w)
    as [(e & He & _ & Hp)|(_ & s & shown & wc & Hp & _)]; rewrite Hp; simpl.
  - rewrite (process_status_hit _ _ _ _ _ _ He). repeat split. by exists e.
  - assert (cache_hit st path (stored st path s shown wc)
            = Some {| time := clock wc + cache_length st; status := s |}) as Hhit.
    { unfold cache_hit. simpl. rewrite lookup_insert_eq. simpl.
      rewrite bool_decide_eq_true_2; [done|lia]. }
    rewrite (process_status_hit _ _ _ _ _ _ Hhit). repeat split. by eexists.
Qed.

(** Two lookups in a row, [git status] answering differently. *)
Lemma lookup_repeated_at_once_witness :
  process_status (Sample.git_os "") Sample.st5 (Git "git" "C:\proj") "C:\proj\a.txt"
    (process_status (Sample.git_os " M a.txt") Sample.st5 (Git "git" "C:\proj")
       "C:\proj\a.txt" Sample.w0).2
  = process_status (Sample.git_os " M a.txt") Sample.st5 (Git "git" "C:\proj")
      "C:\proj\a.txt" Sample.w0.
Proof.
  refine (proj1 (lookup_repeated_at_once (Sample.git_os " M a.txt") (Sample.git_os "")
           Sample.st5 (Git "git" "C:\proj") (Git "git" "C:\proj") "C:\proj\a.txt"
           Sample.w0 _)).
  reflexivity.
Defined.

(** ** Root discovery, read backwards *)

Section FindRootInv.

Context (os : OS) (name : string).

Local Abbreviation marker := (has_marker os name).
Local Abbreviation up := (ancestor os).

Lemma up_dirname d i : up (dirname os d) i = up d (S i).
Proof. unfold ancestor. by rewrite Nat.iter_succ_r. Qed.

Lemma up_fixed d i : dirname os d = d → up d i = d.
Proof.
  intros Hd. induction i as [|i IH]; [done|].
  unfold ancestor in *. simpl. by rewrite IH.
Qed.

Lemma loop_first_inv fuel : ∀ cur last r,
  find_root_loop os name true fuel None last cur = Ok (Some r) →
  ∃ j, r = up cur j ∧ marker r = true ∧ ∀ i, (i < j)%nat → marker (up cur i) = false.
Proof.
  induction fuel as [|fuel IH]; intros cur last r Hloop.
  - simpl in Hloop. by case_bool_decide.
  - destruct (decide (Some cur = last)) as [<-|Hne]; [by rewrite loop_stop in Hloop|].
    destruct (marker cur) eqn:Hm.
    + rewrite loop_unfold, Hm in Hloop by done. simpl in Hloop.
      injection Hloop as <-. exists 0%nat. repeat split; [done|]. intros i Hi. lia.
    + rewrite loop_step_unmarked in Hloop by done.
      destruct (IH _ _ _ Hloop) as (j & -> & Hj & Hlow).
      exists (S j). rewrite <- (up_dirname cur j). repeat split; [done|].
      intros [|i] Hi; [done|]. rewrite <- up_dirname. apply Hlow. lia.
Qed.

Lemma loop_run_inv fuel : ∀ prev x,
  find_root_loop os name false fuel (Some prev) (Some prev) (dirname os prev) = Ok x →
  ∃ n, x = Some (up prev n) ∧
       (∀ i, (1 ≤ i ≤ n)%nat → marker (up prev i) = true) ∧
       (marker (up prev (S n)) = false ∨ up prev (S n) = up prev n).
Proof.
  induction fuel as [|fuel IH]; intros prev x Hloop.
  - simpl in Hloop. case_bool_decide as Hfix; [|done].
    injection Hloop as <-. injection Hfix as Hfix.
    exists 0%nat. repeat split; [intros i Hi; lia|by right].
  - destruct (decide (dirname os prev = prev)) as [Hfix|Hne].
    + rewrite Hfix, loop_stop in Hloop. injection Hloop as <-.
      exists 0%nat. repeat split; [intros i Hi; lia|by right].
    + destruct (marker (dirname os prev)) eqn:Hm.
      * rewrite loop_step_marked in Hloop by (done || congruence).
        destruct (IH _ _ Hloop) as (n & -> & Hmid & Hend).
        exists (S n). rewrite <- (up_dirname prev (S n)), <- (up_dirname prev n).
        repeat split; [|done].
        intros [|[|i]] Hi; [lia|done|]. rewrite <- up_dirname. apply Hmid. lia.
      * rewrite loop_step_break in Hloop by (done || congruence).
        injection Hloop as <-. exists 0%nat. repeat split; [intros i Hi; lia|by left].
Qed.

Lemma loop_outer_inv fuel : ∀ cur last r,
  find_root_loop os name false fuel None last cur = Ok (Some r) →
  ∃ j k, (j ≤ k)%nat ∧ r = up cur k ∧
         (∀ i, (i < j)%nat → marker (up cur i) = false) ∧
         (∀ i, (j ≤ i ≤ k)%nat → marker (up cur i) = true) ∧
         (marker (up cur (S k)) = false ∨ up cur (S k) = up cur k).
Proof.
  induction fuel as [|fuel IH]; intros cur last r Hloop.
  - simpl in Hloop. by case_bool_decide.
  - destruct (decide (Some cur = last)) as [<-|Hne]; [by rewrite loop_stop in Hloop|].
    destruct (marker cur) eqn:Hm.
    + rewrite loop_step_marked in Hloop by done.
      destruct (loop_run_inv _ _ _ Hloop) as (n & [= ->] & Hmid & Hend).
      exists 0%nat, n. repeat split; [lia|intros i Hi; lia| |done].
      intros [|i] Hi; [done|]. apply Hmid. lia.
    + rewrite loop_step_unmarked in Hloop by done.
      destruct (IH _ _ _ Hloop) as (j & k & Hjk & -> & Hlow & Hmid & Hend).
      exists (S j), (S k). rewrite <- (up_dirname cur (S k)), <- (up_dirname cur k).
      repeat split; [lia| | |done].
      * intros [|i] Hi; [done|]. rewrite <- up_dirname. apply Hlow. lia.
      * intros [|i] Hi; [lia|]. rewrite <- up_dirname. apply Hmid. lia.
Qed.

End FindRootInv.

(** X14: [find_root] returns a directory exactly when some ancestor of the
    starting directory has the marker, and raises [RepositoryNotFoundError]
    exactly when none has; it does nothing else. *)
Theorem find_root_decides_membership
    (os : OS) (name path : string) (find_first : bool) :
  os_wf os →
  (under os name path ↔ ∃ r, find_root os name path find_first = Ok r) ∧
  (¬ under os name path ↔
   find_root os name path find_first
   = Raise (RepositoryNotFoundError ("Unable to find " +:+ name +:+ " directory"))).
Proof.
  intros Hwf.
  destruct (find_root_cases os Hwf name path find_first) as [[Hu [r Hr]]|[Hn Hr]];
    rewrite Hr; split; split; try done; eauto.
  intros [r' ?]. done.
Qed.

(** In the sample tree, [.svn] is found and [.git] is not. *)
Lemma find_root_decides_membership_witness :
  (under Sample.nested_svn_os ".git" "C:\wc\a\b\f.txt" ↔
   ∃ r, find_root Sample.nested_svn_os ".git" "C:\wc\a\b\f.txt" true = Ok r) ∧
  (¬ under Sample.nested_svn_os ".git" "C:\wc\a\b\f.txt" ↔
   find_root Sample.nested_svn_os ".git" "C:\wc\a\b\f.txt" true
   = Raise (RepositoryNotFoundError ("Unable to find " +:+ ".git" +:+ " directory"))).
Proof.
  apply (find_root_decides_membership Sample.nested_svn_os ".git" "C:\wc\a\b\f.txt" true).
  apply sample_os_wf.
Defined.

(** X15: the directory [find_root] returns is an ancestor of the starting
    directory that has the marker.  With [find_first] it is the innermost
    such ancestor; without, it is the outer end of the run of marked levels
    that begins at the innermost one: the level above it lacks the marker,
    or is that level again. *)
Theorem find_root_returns_marked_ancestor
    (os : OS) (name path : string) (find_first : bool) (r : string) :
  find_root os name path find_first = Ok r →
  ∃ j k, (j ≤ k)%nat ∧
    r = ancestor os (start_dir os path) k ∧
    has_marker os name r = true ∧
    (∀ i, (i < j)%nat → has_marker os name (ancestor os (start_dir os path) i) = false) ∧
    (∀ i, (j ≤ i ≤ k)%nat →
          has_marker os name (ancestor os (start_dir os path) i) = true) ∧
    (if find_first then j = k
     else has_marker os name (ancestor os (start_dir os path) (S k)) = false ∨
          ancestor os (start_dir os path) (S k) = ancestor os (start_dir os path) k).
Proof.
  unfold find_root, mbind, result_bind.
  destruct (find_root_loop _ _ _ _ _ _ _) as [[r'|]|e|] eqn:Hloop; try done.
  intros [= ->]. destruct find_first.
  - apply loop_first_inv in Hloop as (j & -> & Hj & Hlow).
    exists j, j. repeat split; [lia|done|done|].
    intros i Hi. by replace i with j by lia.
  - apply loop_outer_inv in Hloop as (j & k & Hjk & -> & Hlow & Hmid & Hend).
    exists j, k. repeat split; try done. apply Hmid. lia.
Qed.

(** The outermost of the three nested [.svn] directories of the sample. *)
Lemma find_root_returns_marked_ancestor_witness :
  ∃ j k, (j ≤ k)%nat ∧
    "C:\wc" = ancestor Sample.nested_svn_os
                (start_dir Sample.nested_svn_os "C:\wc\a\b\f.txt") k ∧
    has_marker Sample.nested_svn_os ".svn" "C:\wc" = true ∧
    (∀ i, (i < j)%nat →
          has_marker Sample.nested_svn_os ".svn"
            (ancestor Sample.nested_svn_os
               (start_dir Sample.nested_svn_os "C:\wc\a\b\f.txt") i) = false) ∧
    (∀ i, (j ≤ i ≤ k)%nat →
          has_marker Sample.nested_svn_os ".svn"
            (ancestor Sample.nested_svn_os
               (start_dir Sample.nested_svn_os "C:\wc\a\b\f.txt") i) = true) ∧
    (has_marker Sample.nested_svn_os ".svn"
       (ancestor Sample.nested_svn_os
          (start_dir Sample.nested_svn_os "C:\wc\a\b\f.txt") (S k)) = false ∨
     ancestor Sample.nested_svn_os
       (start_dir Sample.nested_svn_os "C:\wc\a\b\f.txt") (S k)
     = ancestor Sample.nested_svn_os
         (start_dir Sample.nested_svn_os "C:\wc\a\b\f.txt") k).
Proof.
  apply (find_root_returns_marked_ancestor Sample.nested_svn_os ".svn" "C:\wc\a\b\f.txt"
           false "C:\wc").
  reflexivity.
Defined.

(** ** The selector, read backwards *)

Section SelectorInv.

Context (os : OS) (st : Settings).

(** What an attempt that is not passed over must have been. *)
Lemma try_vcs_inv vcs attempt vcs' :
  try_vcs vcs attempt = Ok vcs' →
  (∃ t, attempt = Ok t ∧ vcs' = Some t) ∨
  (vcs' = vcs ∧ ∃ m, attempt = Raise (RepositoryNotFoundError m)).
Proof.
  destruct attempt as [t|[]|]; simpl; intros [= <-]; eauto.
Qed.

Lemma svn_init_inv binary file :
  (∀ t, TortoiseSVN_init os binary file = Ok t →
        ∃ p r, binary = Some p ∧ find_root os ".svn" file false = Ok r ∧
               t = TortoiseSVN p r) ∧
  (∀ m, TortoiseSVN_init os binary file = Raise (RepositoryNotFoundError m) →
        find_root os ".svn" file false = Raise (RepositoryNotFoundError m)).
Proof.
  unfold TortoiseSVN_init, mbind, result_bind.
  destruct (find_root os ".svn" file false) as [r|e|]; destruct binary as [p|];
    split; intros; simplify_eq; eauto.
Qed.

Lemma git_init_inv binary file :
  (∀ t, TortoiseGit_init os binary file = Ok t →
        ∃ p r, binary = Some p ∧ find_root os ".git" file true = Ok r ∧
               t = TortoiseGit p r) ∧
  (∀ m, TortoiseGit_init os binary file = Raise (RepositoryNotFoundError m) →
        find_root os ".git" file true = Raise (RepositoryNotFoundError m)).
Proof.
  unfold TortoiseGit_init, mbind, result_bind.
  destruct (find_root os ".git" file true) as [r|e|]; destruct binary as [p|];
    split; intros; simplify_eq; eauto.
Qed.

Lemma hg_init_inv binary file :
  (∀ t, TortoiseHg_init os binary file = Ok t →
        ∃ p r, binary = Some p ∧ find_root os ".hg" file true = Ok r ∧
               t = TortoiseHg p r) ∧
  (∀ m, TortoiseHg_init os binary file = Raise (RepositoryNotFoundError m) →
        find_root os ".hg" file true = Raise (RepositoryNotFoundError m)).
Proof.
  unfold TortoiseHg_init, mbind, result_bind.
  destruct (find_root os ".hg" file true) as [r|e|]; destruct binary as [p|];
    split; intros; simplify_eq; eauto.
Qed.

(** With a well-founded [dirname], the selector returns a handle or raises
    [NotFoundError]. *)
Lemma get_vcs_outcome path :
  os_wf os →
  (∃ t, get_vcs os st path = Ok t) ∨ (∃ msg, get_vcs os st path = Raise (NotFoundError msg)).
Proof.
  intros Hwf. destruct path as [path|]; [|right; by eexists].
  unfold get_vcs, TortoiseSVN_init, TortoiseGit_init, TortoiseHg_init.
  destruct (find_root_cases os Hwf ".svn" path false) as [[_ [rs ->]]|[_ ->]];
  destruct (find_root_cases os Hwf ".git" path true) as [[_ [rg ->]]|[_ ->]];
  destruct (find_root_cases os Hwf ".hg" path true) as [[_ [rh ->]]|[_ ->]];
  destruct (svn_tortoiseproc_path st) as [bs|];
  destruct (git_tortoiseproc_path st) as [bg|];
  destruct (hg_hgtk_path st) as [bh|]; simpl;
  first [left; by eexists | right; by eexists].
Qed.

End SelectorInv.

(** X16: with a [dirname] that reaches its fixed point, [get_vcs] returns a
    handle or raises [NotFoundError]; a [RepositoryNotFoundError] never
    leaves it.  Without a path it raises [NotFoundError] at once. *)
Theorem get_vcs_raises_not_found_only (os : OS) (st : Settings) (path : option string) :
  os_wf os →
  ((∃ t, get_vcs os st path = Ok t) ∨
   (∃ msg, get_vcs os st path = Raise (NotFoundError msg))) ∧
  (path = None →
   get_vcs os st path = Raise (NotFoundError "Unable to run commands on an unsaved file")).
Proof.
  intros Hwf. split; [by apply get_vcs_outcome|]. by intros ->.
Qed.

(** A file under no marker at all. *)
Lemma get_vcs_raises_not_found_only_witness :
  ((∃ t, get_vcs Sample.only_git_os Sample.st5 (Some "D:\notes.txt") = Ok t) ∨
   (∃ msg, get_vcs Sample.only_git_os Sample.st5 (Some "D:\notes.txt")
           = Raise (NotFoundError msg))) ∧
  (Some "D:\notes.txt" = None →
   get_vcs Sample.only_git_os Sample.st5 (Some "D:\notes.txt")
   = Raise (NotFoundError "Unable to run commands on an unsaved file")).
Proof.
  apply (get_vcs_raises_not_found_only Sample.only_git_os Sample.st5 (Some "D:\notes.txt")).
  apply sample_os_wf.
Defined.

(** X17: a handle [get_vcs] returns carries the binary path configured for
    its backend and the root [find_root] gives for the backend's marker
    ([find_first] off for SVN only); every backend later in the order found
    no marker. *)
Theorem get_vcs_handle_is_consistent
    (os : OS) (st : Settings) (path : option string) (t : Tortoise) :
  get_vcs os st path = Ok t →
  ∃ file,
    path = Some file ∧
    binary_setting st t = Some (handle_path t) ∧
    find_root os (marker_of t) file
      (match t with TortoiseSVN _ _ => false | _ => true end) = Ok (handle_root t) ∧
    match t with
    | TortoiseSVN _ _ =>
        (∃ m, find_root os ".git" file true = Raise (RepositoryNotFoundError m)) ∧
        (∃ m, find_root os ".hg" file true = Raise (RepositoryNotFoundError m))
    | TortoiseGit _ _ =>
        ∃ m, find_root os ".hg" file true = Raise (RepositoryNotFoundError m)
    | TortoiseHg _ _ => True
    end.
Proof.
  destruct path as [file|]; [|done]. intros Hget. exists file. split; [done|].
  unfold get_vcs, mbind, result_bind in Hget.
  destruct (try_vcs None _) as [v1| |] eqn:H1; try done.
  destruct (try_vcs v1 _) as [v2| |] eqn:H2; try done.
  destruct (try_vcs v2 _) as [v3| |] eqn:H3; try done.
  destruct v3 as [t'|]; [|done]. injection Hget as ->.
  apply try_vcs_inv in H3 as [(t' & Hh & [= <-])|(<- & mh & Hh)].
  { apply hg_init_inv in Hh as (p & r & Hb & Hr & ->). done. }
  apply hg_init_inv in Hh.
  apply try_vcs_inv in H2 as [(t' & Hg & [= <-])|(<- & mg & Hg)].
  { apply git_init_inv in Hg as (p & r & Hb & Hr & ->). simpl. eauto. }
  apply git_init_inv in Hg.
  apply try_vcs_inv in H1 as [(t' & Hs & [= <-])|([=] & _)].
  apply svn_init_inv in Hs as (p & r & Hb & Hr & ->). simpl. eauto 6.
Qed.

(** The handle for the file under [.git] and [.hg]. *)
Lemma get_vcs_handle_is_consistent_witness :
  ∃ file,
    Some "C:\proj\a.txt" = Some file ∧
    Some "C:\hg\thgw.exe" = Some "C:\hg\thgw.exe" ∧
    find_root Sample.git_hg_os ".hg" file true = Ok "C:\proj" ∧ True.
Proof.
  apply (get_vcs_handle_is_consistent Sample.git_hg_os
           (Sample.settings (Some "C:\svn\TortoiseProc.exe")
              (Some "C:\git\TortoiseProc.exe") (Some "C:\hg\thgw.exe") 5)
           (Some "C:\proj\a.txt") (TortoiseHg "C:\hg\thgw.exe" "C:\proj")).
  reflexivity.
Defined.

(** X18: under an [.svn] marker with [svn_tortoiseproc_path] unset,
    [get_vcs] raises the [NotFoundError] of [TortoiseSVN], whatever other
    markers there are and whatever the other settings: Git and Mercurial
    are not tried. *)
Theorem get_vcs_unset_svn_path_ends_selection
    (os : OS) (st : Settings) (path : string) :
  os_wf os →
  under os ".svn" path →
  svn_tortoiseproc_path st = None →
  get_vcs os st (Some path)
  = Raise (set_binary_path os "TortoiseSVN" "TortoiseSVN\bin\TortoiseProc.exe"
             "TortoiseProc.exe" "svn_tortoiseproc_path").
Proof.
  intros Hwf Hu Hs. unfold get_vcs, TortoiseSVN_init.
  destruct (find_root_cases os Hwf ".svn" path false) as [[_ [r ->]]|[Hn _]]; [|done].
  by rewrite Hs.
Qed.

(** A Git working copy inside an SVN one, only Git being configured. *)
Lemma get_vcs_unset_svn_path_ends_selection_witness :
  get_vcs Demo.root_os (Sample.settings None (Some "C:\git\TortoiseProc.exe") None 5)
    (Some "C:\wc\a.txt")
  = Raise (set_binary_path Demo.root_os "TortoiseSVN" "TortoiseSVN\bin\TortoiseProc.exe"
             "TortoiseProc.exe" "svn_tortoiseproc_path").
Proof.
  apply (get_vcs_unset_svn_path_ends_selection Demo.root_os
           (Sample.settings None (Some "C:\git\TortoiseProc.exe") None 5) "C:\wc\a.txt").
  - apply sample_os_wf.
  - exists 0%nat. reflexivity.
  - reflexivity.
Defined.

(** ** The menu commands *)

Section Commands.

Context (os : OS) (st : Settings) (win : Window) (paths : Paths).

Lemma get_status_never_raises t path w :
  ∃ s w', get_status os st t path w = (Ok s, w').
Proof.
  destruct t as [p r|p r|p r]; simpl;
    match goal with |- context [process_status os st ?v path w] =>
      destruct (process_status_checks os st v path w) as (s & w' & -> & _)
    end; eauto.
Qed.

Lemma get_status_repeated t path w :
  0 < cache_length st →
  get_status os st t path (get_status os st t path w).2 = get_status os st t path w.
Proof. intros Httl. destruct t; simpl; by apply process_status_repeated. Qed.

(** The outcome of a method that begins with [get_vcs(path)]. *)
Lemma with_vcs_found k file t w :
  get_path win paths = Some file → get_vcs os st (Some file) = Ok t →
  with_vcs os st win paths k w = k t file w.
Proof. intros Hp Hv. unfold with_vcs, lift. unfold_M. by rewrite Hp, Hv. Qed.

Lemma with_vcs_not_found k msg w :
  get_vcs os st (get_path win paths) = Raise (NotFoundError msg) →
  with_vcs os st win paths k w = (Raise (NotFoundError msg), w).
Proof. intros Hv. unfold with_vcs, lift. unfold_M. by rewrite Hv. Qed.

Lemma with_vcs_cases k w :
  os_wf os →
  (∃ file t, get_path win paths = Some file ∧ get_vcs os st (Some file) = Ok t ∧
             with_vcs os st win paths k w = k t file w) ∨
  (∃ msg, with_vcs os st win paths k w = (Raise (NotFoundError msg), w)).
Proof.
  intros Hwf.
  destruct (get_vcs_outcome os st (get_path win paths) Hwf) as [[t Ht]|[msg Hm]].
  - left. destruct (get_path win paths) as [file|] eqn:Hp; [|done].
    exists file, t. repeat split; [done|]. by apply with_vcs_found.
  - right. exists msg. by apply with_vcs_not_found.
Qed.

End Commands.

(** X19: [is_visible] of the commit, status and sync commands spawns
    nothing and changes nothing; it answers [True] exactly when the menus
    are enabled, there is a non-empty path, [get_vcs] finds a backend for
    it and the path is a directory, and [False] otherwise. *)
Theorem commit_is_visible_for_versioned_directories
    (os : OS) (st : Settings) (win : Window) (paths : Paths) (w : World) :
  os_wf os →
  ∃ b,
    TortoiseCommitCommand_is_visible os st win paths w = (Ok (PyBool b), w) ∧
    (b = true ↔
     menus_enabled win = true ∧
     ∃ path, get_path win paths = Some path ∧ path ≠ "" ∧
             (∃ t, get_vcs os st (Some path) = Ok t) ∧ isdir os path = true).
Proof.
  intros Hwf. unfold TortoiseCommitCommand_is_visible, invisible_when_not_found.
  destruct (menus_enabled win) eqn:Hm; cbn [negb].
  2:{ exists false. split; [done|]. split; [done|]. by intros [? _]. }
  destruct (get_path win paths) as [path|] eqn:Hp.
  2:{ exists false. split; [done|]. split; [done|]. by intros [_ (? & ? & _)]. }
  case_bool_decide as Hpath.
  { exists false. split; [done|]. split; [done|]. intros [_ (? & [= <-] & ? & _)]. done. }
  unfold lift. unfold_M.
  destruct (get_vcs_outcome os st (Some path) Hwf) as [[t Ht]|[msg Hmsg]].
  - rewrite Ht. exists (isdir os path). split; [done|]. split.
    + intros Hd. split; [done|]. exists path. eauto.
    + by intros [_ (? & [= <-] & _ & _ & ?)].
  - rewrite Hmsg. exists false. split; [done|]. split; [done|].
    intros [_ (? & [= <-] & _ & [t Ht] & _)]. congruence.
Qed.

(** A directory of the Git working copy of the sample, from the side bar. *)
Lemma commit_is_visible_for_versioned_directories_witness :
  ∃ b,
    TortoiseCommitCommand_is_visible (Demo.git_os "") Demo.git_settings
      (Demo.editing None) (PathsList ["C:\proj\sub"]) Sample.w0
    = (Ok (PyBool b), Sample.w0) ∧
    (b = true ↔
     menus_enabled (Demo.editing None) = true ∧
     ∃ path, get_path (Demo.editing None) (PathsList ["C:\proj\sub"]) = Some path ∧
             path ≠ "" ∧
             (∃ t, get_vcs (Demo.git_os "") Demo.git_settings (Some path) = Ok t) ∧
             isdir (Demo.git_os "") path = true).
Proof.
  apply (commit_is_visible_for_versioned_directories (Demo.git_os "") Demo.git_settings
           (Demo.editing None) (PathsList ["C:\proj\sub"]) Sample.w0).
  apply sample_os_wf.
Defined.

(** X20: the five [is_visible] methods modelled never raise, with a
    [dirname] that reaches its fixed point; for an unsaved buffer and no
    path from the side bar they answer [False] and leave the state alone. *)
Theorem is_visible_never_raises
    (os : OS) (st : Settings) (win : Window) (paths : Paths) (w : World) :
  os_wf os →
  (∀ f, f ∈ [TortoiseCommitCommand_is_visible; TortoiseLogCommand_is_visible;
             TortoiseDiffCommand_is_visible; TortoiseAddCommand_is_visible;
             TortoiseRemoveCommand_is_visible] →
        (∃ v w', f os st win paths w = (Ok v, w')) ∧
        (get_path win paths = None → f os st win paths w = (Ok (PyBool false), w))).
Proof.
  intros Hwf f Hf.
  assert (∀ k, (∀ t file w0, ∃ v w', k t file w0 = (Ok v, w')) →
            (∃ v w', invisible_when_not_found
                       (if negb (menus_enabled win) then mret (PyBool false)
                        else with_vcs os st win paths k) w = (Ok v, w')) ∧
            (get_path win paths = None →
             invisible_when_not_found
               (if negb (menus_enabled win) then mret (PyBool false)
                else with_vcs os st win paths k) w = (Ok (PyBool false), w))) as Hgen.
  { intros k Hk. unfold invisible_when_not_found.
    destruct (menus_enabled win); simpl; [|split; [by eauto|done]]. split.
    - destruct (with_vcs_cases os st win paths k w Hwf)
        as [(file & t & _ & _ & ->)|(msg & ->)]; [|by eauto].
      destruct (Hk t file w) as (v & w' & ->). destruct v; eauto.
    - intros Hp. rewrite (with_vcs_not_found os st win paths k
        "Unable to run commands on an unsaved file" w); [done|]. by rewrite Hp. }
  assert (∀ t file w0 (g : option string → pyval),
            ∃ v w', (s ← get_status os st t file; mret (g s)) w0 = (Ok v, w')) as Hst.
  { intros t file w0 g. unfold_M.
    destruct (get_status_never_raises os st t file w0) as (s & w' & ->). eauto. }
  repeat (apply elem_of_cons in Hf as [->|Hf]); [| | | | |by apply elem_of_nil in Hf].
  - unfold TortoiseCommitCommand_is_visible, invisible_when_not_found.
    destruct (menus_enabled win); cbn [negb]; [|split; [by eauto|done]].
    destruct (get_path win paths) as [path|]; [|split; [by eauto|done]].
    split; [|done]. case_bool_decide; [by eauto|]. unfold lift. unfold_M.
    destruct (get_vcs_outcome os st (Some path) Hwf) as [[t ->]|[msg ->]]; eauto.
  - apply Hgen. intros t file w0. destruct (isdir os file); [by eauto|].
    unfold path_and. case_bool_decide; [by eauto|].
    unfold_M. destruct (get_status_never_raises os st t file w0) as (s & w' & ->). eauto.
  - apply Hgen. intros t file w0. destruct (isdir os file); [by eauto|].
    apply (Hst t file w0 (fun s => PyBool (status_in s visible_statuses))).
  - apply Hgen. intros t file w0.
    apply (Hst t file w0 (fun s => PyBool (status_in s ["D"; "?"]))).
  - apply Hgen. intros t file w0.
    apply (Hst t file w0 (fun s => PyBool (status_in s visible_statuses))).
Qed.

(** The add command on an unsaved buffer. *)
Lemma is_visible_never_raises_witness :
  (∃ v w', TortoiseAddCommand_is_visible Sample.only_git_os Sample.st5
             {| active_file := None; enable_menus := true |} PathsNone Sample.w0
           = (Ok v, w')) ∧
  (get_path {| active_file := None; enable_menus := true |} PathsNone = None →
   TortoiseAddCommand_is_visible Sample.only_git_os Sample.st5
     {| active_file := None; enable_menus := true |} PathsNone Sample.w0
   = (Ok (PyBool false), Sample.w0)).
Proof.
  apply (is_visible_never_raises Sample.only_git_os Sample.st5
           {| active_file := None; enable_menus := true |} PathsNone Sample.w0
           (sample_os_wf _ _ _ _) TortoiseAddCommand_is_visible).
  do 3 right. left.
Defined.

(** X21: with a positive [cache_length], when [is_visible] of the add
    command answers true, [is_visible] of the remove and revert commands,
    asked next, answers [False] from the cache, without a child process:
    the two menu items never show together. *)
Theorem add_and_remove_never_show_together
    (os : OS) (st : Settings) (win : Window) (paths : Paths) (w w' : World) (v : pyval) :
  0 < cache_length st →
  TortoiseAddCommand_is_visible os st win paths w = (Ok v, w') →
  truthy v = true →
  TortoiseRemoveCommand_is_visible os st win paths w' = (Ok (PyBool false), w') ∧
  TortoiseRevertCommand_is_visible os st win paths w' = (Ok (PyBool false), w').
Proof.
  intros Httl Hadd Hv.
  assert (TortoiseRemoveCommand_is_visible os st win paths w' = (Ok (PyBool false), w'));
    [|done].
  revert Hadd. unfold TortoiseAddCommand_is_visible, TortoiseRemoveCommand_is_visible,
    invisible_when_not_found.
  destruct (menus_enabled win); cbn [negb]; [|intros [= <- <-]; done].
  unfold with_vcs, lift. unfold_M.
  destruct (get_vcs os st (get_path win paths)) as [t|[]|] eqn:Hvcs;
    try (intros [= <- <-]; done).
  destruct (get_path win paths) as [file|]; [|done].
  pose proof (get_status_repeated os st t file w Httl) as Hrep.
  destruct (get_status os st t file w) as [[s| |] w1] eqn:Hst; try (by intros [= <- <-]).
  - intros [= <- <-]. simpl in Hrep. rewrite Hrep. simpl in Hv.
    destruct s as [s|]; [|done]. simpl in *.
    apply bool_decide_eq_true in Hv.
    repeat (apply elem_of_cons in Hv as [->|Hv]); [done..|by apply elem_of_nil in Hv].
  - destruct e; by intros [= <- <-].
Qed.

(** A file Git does not know: add shows, remove does not. *)
Lemma add_and_remove_never_show_together_witness :
  TortoiseRemoveCommand_is_visible (Demo.git_os "?? a.txt") Demo.git_settings
    (Demo.editing (Some "C:\proj\a.txt")) PathsNone
    (TortoiseAddCommand_is_visible (Demo.git_os "?? a.txt") Demo.git_settings
       (Demo.editing (Some "C:\proj\a.txt")) PathsNone Sample.w0).2
  = (Ok (PyBool false),
     (TortoiseAddCommand_is_visible (Demo.git_os "?? a.txt") Demo.git_settings
        (Demo.editing (Some "C:\proj\a.txt")) PathsNone Sample.w0).2).
Proof.
  refine (proj1 (add_and_remove_never_show_together (Demo.git_os "?? a.txt")
           Demo.git_settings (Demo.editing (Some "C:\proj\a.txt")) PathsNone
           Sample.w0 _ (PyBool true) _ _ _)).
  - reflexivity.
  - vm_compute. reflexivity.
  - reflexivity.
Defined.

(** ** The activity indicator *)

(** X22: from the defaults [i=0], [dir=1], the indicator of
    [handle_threads] stays in place: before every pass [i] is between 0 and
    7 and [dir] is 1 or -1, so that the two widths of the status text are
    [i] and [7 - i] and add up to 7. *)
Theorem animation_stays_in_range (n : nat) :
  0 ≤ (animation n).1 ≤ 7 ∧
  ((animation n).2 = 1 ∨ (animation n).2 = -1) ∧
  (animate (animation n).1 (animation n).2).1.1.1 = (animation n).1 ∧
  (animate (animation n).1 (animation n).2).1.1.2 = 7 - (animation n).1.
Proof.
  assert (0 ≤ (animation n).1 ≤ 7 ∧ ((animation n).2 = 1 ∨ (animation n).2 = -1)) as Hinv.
  { induction n as [|n IH]; [simpl; lia|]. simpl.
    destruct (animation n) as [i dir]. simpl in *. unfold animate.
    rewrite Z.mod_small by lia. simpl.
    repeat case_bool_decide; simpl; lia. }
  destruct (animation n) as [i dir]. simpl in *. unfold animate. simpl.
  rewrite Z.mod_small by lia. repeat split; lia.
Qed.

(** ** [search_file], read backwards *)

Section SearchInv.

Context (os : OS).

Lemma search_names_inv root names m0 m :
  search_names os root names m0 = Some m →
  Some m = m0 ∨ ∃ n, n ∈ names ∧ m = join os root n.
Proof.
  revert m0. induction names as [|n names IH]; intros m0; simpl; [by left|].
  case_bool_decide.
  - intros [= ?]. subst m. right. exists n. split; [by left|done].
  - intros [[= ?]|(n' & Hin & ->)]%IH; right.
    + subst m. exists n. split; [by left|done].
    + exists n'. split; [by right|done].
Qed.

Lemma search_walk_inv l m0 m :
  search_walk os l m0 = Some m →
  Some m = m0 ∨
  ∃ root dirnames filenames n,
    (root, dirnames, filenames) ∈ l ∧ n ∈ ffilter os filenames "git.exe" ∧
    m = join os root n.
Proof.
  revert m0. induction l as [|[[r d] f] l IH]; intros m0; [by left|].
  unfold search_walk in *. simpl.
  intros [Hm|(root & ds & fs & n & Hin & Hn & ->)]%IH.
  - symmetry in Hm. apply search_names_inv in Hm as [?|(n & Hn & ->)]; [by left|].
    right. exists r, d, f, n. split; [by left|done].
  - right. exists root, ds, fs, n. split; [by right|done].
Qed.

End SearchInv.

(** X23: a path [search_file] returns is joined from a directory walked
    under one of the arguments that are directories and a file of that
    directory whose name matches [git.exe]. *)
Theorem search_file_result_was_walked
    (os : OS) (filename : string) (dirs : list string) (found : string) :
  search_file os filename dirs = Some found →
  ∃ dir root dirnames filenames name,
    dir ∈ dirs ∧ isdir os dir = true ∧
    (root, dirnames, filenames) ∈ walk os dir ∧
    name ∈ filenames ∧ normcase os name = normcase os "git.exe" ∧
    found = join os root name.
Proof.
  rewrite search_file_walked.
  intros [?|(root & ds & fs & n & Hin & Hn & ->)]%search_walk_inv; [done|].
  unfold walked in Hin. apply list_elem_of_In, in_concat in Hin as (l & Hl & Hin).
  apply in_map_iff in Hl as (dir & <- & Hdir).
  apply list_elem_of_In in Hdir, Hin.
  apply list_elem_of_filter in Hdir as [Hd Hdir].
  apply elem_of_ffilter in Hn as [Hn Hf].
  exists dir, root, ds, fs, n. done.
Qed.

(** The copy of [git.exe] found in the sample tree. *)
Lemma search_file_result_was_walked_witness :
  ∃ dir root dirnames filenames name,
    dir ∈ ["C:\Program Files (x86)"] ∧ isdir Sample.search_os dir = true ∧
    (root, dirnames, filenames) ∈ walk Sample.search_os dir ∧
    name ∈ filenames ∧
    normcase Sample.search_os name = normcase Sample.search_os "git.exe" ∧
    "C:\Program Files (x86)\Git\cmd\git.exe" = join Sample.search_os root name.
Proof.
  apply (search_file_result_was_walked Sample.search_os "tgit.exe"
           ["C:\Program Files (x86)"] "C:\Program Files (x86)\Git\cmd\git.exe").
  reflexivity.
Defined.

(** ** The handles' [get_status] *)

(** X24: on a cache miss, [TortoiseSVN.get_status] starts [svn status]
    processes in the root for a prefix of its one or two candidates, every
    one of which could be started, and returns a status only after at least
    one was; the client of the setting [svn_path] comes first when it is
    set, the bundled [svn.exe] last. *)
Theorem svn_get_status_runs_configured_client_first
    (os : OS) (st : Settings) (p root path : string) (w : World) :
  cache_hit st path w = None →
  ∃ k, (k ≤ length (get_svn_paths os st) ≤ 2)%nat ∧
       (1 ≤ length (get_svn_paths os st))%nat ∧
       spawned (get_status os st (TortoiseSVN p root) path w).2
       = rev (map (fun q => (svn_args path q, root)) (take k (get_svn_paths os st)))
           ++ spawned w ∧
       (∀ q, q ∈ take k (get_svn_paths os st) →
             ∃ readout, popen os (svn_args path q) root = inr readout) ∧
       (∀ s, (get_status os st (TortoiseSVN p root) path w).1 = Ok (Some s) →
             (1 ≤ k)%nat) ∧
       (∀ q, svn_path st = Some q → head (get_svn_paths os st) = Some q) ∧
       last (get_svn_paths os st)
       = Some (join os (join os (join os (packages_path os) (PACKAGE_ROOT os)) "svn")
                 "svn.exe").
Proof.
  intros Hmiss.
  destruct (svn_check_status_spawns os root path (get_svn_paths os st) w)
    as (k & Hk & Hcs & Hall & H1).
  exists k. split.
  { split; [done|]. unfold get_svn_paths. destruct (svn_path st); simpl; lia. }
  split.
  { unfold get_svn_paths. destruct (svn_path st); simpl; lia. }
  change (get_status os st (TortoiseSVN p root) path w)
    with (process_status os st (SVN root (get_svn_paths os st)) path w).
  destruct (process_status_cases os st (SVN root (get_svn_paths os st)) path w)
    as [(e & He & _)|(_ & s & shown & wc & Heq & _ & Hwc & Hout)]; [congruence|].
  rewrite Heq. cbn [fst snd]. unfold stored. cbn [spawned].
  split; [by rewrite Hwc, Hcs, svn_spawns_spawned|].
  split; [done|]. split; [|split].
  - intros s' [= ->]. destruct Hout as [(_ & Hok & _)|(? & _)]; [|done].
    by apply (H1 s').
  - intros q Hq. unfold get_svn_paths. by rewrite Hq.
  - unfold get_svn_paths. by destruct (svn_path st).
Qed.

(** The client of [svn_path] rejects the working copy, the bundled one
    lists the file: both are run, and the status is [M]. *)
Lemma svn_get_status_runs_configured_client_first_witness :
  (get_status Demo.bundled_os Demo.svn_settings
     (TortoiseSVN "C:\svn\TortoiseProc.exe" "C:\wc") "C:\wc\foo.txt" Sample.w0).1
  = Ok (Some "M") ∧
  ∃ k, (k ≤ length (get_svn_paths Demo.bundled_os Demo.svn_settings) ≤ 2)%nat ∧
       (1 ≤ length (get_svn_paths Demo.bundled_os Demo.svn_settings))%nat ∧
       spawned (get_status Demo.bundled_os Demo.svn_settings
                  (TortoiseSVN "C:\svn\TortoiseProc.exe" "C:\wc") "C:\wc\foo.txt"
                  Sample.w0).2
       = rev (map (fun q => (svn_args "C:\wc\foo.txt" q, "C:\wc"))
                (take k (get_svn_paths Demo.bundled_os Demo.svn_settings)))
           ++ spawned Sample.w0 ∧
       (∀ q, q ∈ take k (get_svn_paths Demo.bundled_os Demo.svn_settings) →
             ∃ readout,
               popen Demo.bundled_os (svn_args "C:\wc\foo.txt" q) "C:\wc" = inr readout) ∧
       (∀ s, (get_status Demo.bundled_os Demo.svn_settings
                (TortoiseSVN "C:\svn\TortoiseProc.exe" "C:\wc") "C:\wc\foo.txt"
                Sample.w0).1 = Ok (Some s) → (1 ≤ k)%nat) ∧
       (∀ q, svn_path Demo.svn_settings = Some q →
             head (get_svn_paths Demo.bundled_os Demo.svn_settings) = Some q) ∧
       last (get_svn_paths Demo.bundled_os Demo.svn_settings)
       = Some (join Demo.bundled_os
                 (join Demo.bundled_os
                    (join Demo.bundled_os (packages_path Demo.bundled_os)
                       (PACKAGE_ROOT Demo.bundled_os)) "svn") "svn.exe").
Proof.
  split; [reflexivity|].
  apply (svn_get_status_runs_configured_client_first Demo.bundled_os Demo.svn_settings
           "C:\svn\TortoiseProc.exe" "C:\wc" "C:\wc\foo.txt" Sample.w0).
  reflexivity.
Defined.

(** X25: for a directory that [get_vcs] finds a backend for, [is_visible]
    of the log and diff commands answers [True] when the menus are enabled,
    without a status lookup: no process is run and the cache is not
    touched. *)
Theorem log_and_diff_show_for_directories
    (os : OS) (st : Settings) (win : Window) (paths : Paths) (w : World)
    (path : string) (t : Tortoise) :
  menus_enabled win = true →
  get_path win paths = Some path →
  get_vcs os st (Some path) = Ok t →
  isdir os path = true →
  TortoiseLogCommand_is_visible os st win paths w = (Ok (PyBool true), w) ∧
  TortoiseDiffCommand_is_visible os st win paths w = (Ok (PyBool true), w).
Proof.
  intros Hm Hp Hv Hd.
  unfold TortoiseLogCommand_is_visible, TortoiseDiffCommand_is_visible,
    invisible_when_not_found.
  rewrite Hm. cbn [negb].
  rewrite !(with_vcs_found os st win paths _ path t w Hp Hv). by rewrite Hd.
Qed.

(** The directory [C:\proj\sub] of the sample, picked in the side bar. *)
Lemma log_and_diff_show_for_directories_witness :
  TortoiseLogCommand_is_visible (Demo.git_os "") Demo.git_settings (Demo.editing None)
    (PathsList ["C:\proj\sub"]) Sample.w0 = (Ok (PyBool true), Sample.w0) ∧
  TortoiseDiffCommand_is_visible (Demo.git_os "") Demo.git_settings (Demo.editing None)
    (PathsList ["C:\proj\sub"]) Sample.w0 = (Ok (PyBool true), Sample.w0).
Proof.
  apply (log_and_diff_show_for_directories (Demo.git_os "") Demo.git_settings
           (Demo.editing None) (PathsList ["C:\proj\sub"]) Sample.w0 "C:\proj\sub"
           (TortoiseGit "C:\git\TortoiseProc.exe" "C:\proj")); reflexivity.
Defined.
